(** * mharender: the image-to-mesh pipeline of [main.py] and its call sites in [app.py]

    A shallow embedding of the Python code.  Python values are dynamically
    typed and lists are heap objects referred to by address, so the
    functions of [main.py] are written in a state-and-exception monad over
    a world made of the object heap, the file system and the output
    streams.  Python floats are binary64 (Rocq's primitive floats); numpy
    float32 samples are binary32 values of [SpecFloat]. *)

From Stdlib Require Import ZArith Floats String Ascii DecimalString DecimalZ DecimalPos Lia.
From stdpp Require Import gmap strings list.

(** ** Python values, exceptions and numpy arrays *)

Module Py.

Definition loc := nat.

(** The values that flow through the pipeline.  A list is a heap object;
    a value of list type is its address. *)
Inductive pyval :=
| PNone
| PInt (z : Z)
| PFloat (f : float)
| PStr (s : string)
| PRef (l : loc).

Inductive exn :=
| TypeError
| IndexError
| OverflowError
| AttributeError
| ImportError
| NotImplementedError
| FileNotFoundError
| OSError
| CvError
| SystemExit.

Inductive result (A : Type) :=
| Ok (a : A)
| Raise (e : exn).
Arguments Ok {A} a.
Arguments Raise {A} e.

(** A two-dimensional numpy array: its [shape] and its rows. *)
Record array2 (A : Type) := Array2 {
  shape : nat * nat;
  rows : list (list A)
}.
Arguments Array2 {A} shape rows.
Arguments shape {A} a.
Arguments rows {A} a.

Definition wf_array2 {A} (a : array2 A) : Prop :=
  length (rows a) = fst (shape a) ∧
  Forall (λ r, length r = snd (shape a)) (rows a).

(** [a[y, x]] *)
Definition at2 {A} (a : array2 A) (y x : nat) : option A :=
  match rows a !! y with
  | Some r => r !! x
  | None => None
  end.

Definition map2 {A B} (f : A → B) (a : array2 A) : array2 B :=
  Array2 (shape a) (map (map f) (rows a)).

(** A decoded 8-bit image: an H x W grid of pixels, each a list of
    [nchan] channel samples in 0..255 (BGR order for colour images). *)
Record image := Image {
  pixels : array2 (list Z);
  nchan : nat
}.

Definition is_u8 (z : Z) : Prop := (0 ≤ z ≤ 255)%Z.

Definition wf_image (im : image) : Prop :=
  wf_array2 (pixels im) ∧
  0 < fst (shape (pixels im)) ∧
  0 < snd (shape (pixels im)) ∧
  Forall (Forall (λ p, length p = nchan im ∧ Forall is_u8 p)) (rows (pixels im)).

(** *** Floating point *)

(** binary32, the element type of the height map *)
Definition f32 := spec_float.
Definition f32_of_Z (z : Z) : f32 := binary_normalize 24 128 z 0 false.
Definition f32_div (a b : f32) : f32 := SFdiv 24 128 a b.
Definition f32_zero : f32 := S754_zero false.
Definition f32_one : f32 := f32_of_Z 1.

(** [float(z)] for a numpy float32 [z]: every binary32 value is a binary64 value *)
Definition float_of_f32 (z : f32) : float := SF2Prim z.

(** [float(n)] for a Python int, rounded to nearest even; Python raises
    [OverflowError] when the integer is beyond the binary64 range. *)
Definition float_of_Z (z : Z) : float := SF2Prim (binary_normalize 53 1024 z 0 false).

Definition float_of_int (z : Z) : result float :=
  let f := float_of_Z z in
  if PrimFloat.is_infinity f then Raise OverflowError else Ok f.

(** *** Files and the world *)

Inductive file :=
| FImage (im : image)   (* a file that the image decoder reads as [im] *)
| FText (s : string).   (* any other content, given as text *)

Inductive ui_event :=
| UiWarning (e : exn).

Record world := World {
  heap : list (list pyval);       (* list objects, by address *)
  files : gmap string file;       (* the file system, by path *)
  writable : string → bool;       (* the paths [open(p, "w")] can create *)
  cv2_present : bool;             (* whether [import cv2] succeeded *)
  stdout : list string;           (* lines printed *)
  ui : list ui_event              (* messages shown by the web page *)
}.

Definition set_heap (h : list (list pyval)) (w : world) : world :=
  World h (files w) (writable w) (cv2_present w) (stdout w) (ui w).
Definition set_files (fs : gmap string file) (w : world) : world :=
  World (heap w) fs (writable w) (cv2_present w) (stdout w) (ui w).
Definition set_stdout (o : list string) (w : world) : world :=
  World (heap w) (files w) (writable w) (cv2_present w) o (ui w).
Definition set_ui (u : list ui_event) (w : world) : world :=
  World (heap w) (files w) (writable w) (cv2_present w) (stdout w) u.

(** *** The monad of Python statements *)

Definition M (A : Type) : Type := world → result A * world.

Definition ret {A} (a : A) : M A := λ w, (Ok a, w).
Definition raise {A} (e : exn) : M A := λ w, (Raise e, w).
Definition bind {A B} (m : M A) (k : A → M B) : M B :=
  λ w, match m w with
       | (Ok a, w') => k a w'
       | (Raise e, w') => (Raise e, w')
       end.
Definition lift {A} (r : result A) : M A := λ w, (r, w).

(** [try: body except Exception as e: handler(e)] *)
Definition try_except {A} (body : M A) (handler : exn → M A) : M A :=
  λ w, match body w with
       | (Ok a, w') => (Ok a, w')
       | (Raise e, w') => handler e w'
       end.

(** [try: body finally: cleanup] *)
Definition try_finally {A} (body : M A) (cleanup : M unit) : M A :=
  λ w, match body w with
       | (r, w') =>
           match cleanup w' with
           | (Ok _, w'') => (r, w'')
           | (Raise e, w'') => (Raise e, w'')
           end
       end.

Declare Scope py_scope.
Delimit Scope py_scope with py.
Notation "x <- m ;; k" := (bind m (λ x, k))
  (at level 100, m at next level, right associativity) : py_scope.
Notation "m ;; k" := (bind m (λ _, k))
  (at level 100, right associativity) : py_scope.
Open Scope py_scope.

(** [for x in xs: body] over an already taken sequence of items *)
Fixpoint for_each {A} (xs : list A) (body : A → M unit) : M unit :=
  match xs with
  | [] => ret tt
  | x :: xs' => body x ;; for_each xs' body
  end.

(** The items of [range(n)] *)
Definition range (n : nat) : list nat := seq 0 n.

(** *** Lists as heap objects *)

(** A list display or a finished comprehension: a fresh list object *)
Definition new_list (items : list pyval) : M pyval :=
  λ w, (Ok (PRef (length (heap w))), set_heap (heap w ++ [items]) w).

(** [target.append(x)] *)
Definition list_append (target x : pyval) : M unit :=
  λ w, match target with
       | PRef l =>
           match heap w !! l with
           | Some items => (Ok tt, set_heap (<[l := items ++ [x]]> (heap w)) w)
           | None => (Raise AttributeError, w)
           end
       | _ => (Raise AttributeError, w)
       end.

Definition chars (s : string) : list pyval :=
  map (λ c, PStr (String c EmptyString)) (list_ascii_of_string s).

(** [iter(v)] run to the end: the items a [for] loop will see.  The loops
    of this program never change the object they iterate over. *)
Definition items_of (v : pyval) : M (list pyval) :=
  λ w, match v with
       | PRef l =>
           match heap w !! l with
           | Some items => (Ok items, w)
           | None => (Raise TypeError, w)
           end
       | PStr s => (Ok (chars s), w)
       | _ => (Raise TypeError, w)
       end.

(** [v[i]] for a literal index [i >= 0] *)
Definition getitem (v : pyval) (i : nat) : M pyval :=
  λ w, match v with
       | PRef l =>
           match heap w !! l with
           | Some items =>
               match items !! i with
               | Some x => (Ok x, w)
               | None => (Raise IndexError, w)
               end
           | None => (Raise TypeError, w)
           end
       | PStr s =>
           match chars s !! i with
           | Some x => (Ok x, w)
           | None => (Raise IndexError, w)
           end
       | _ => (Raise TypeError, w)
       end.

(** [v * c] for a float constant [c] *)
Definition mul_float (v : pyval) (c : float) : M pyval :=
  match v with
  | PFloat f => ret (PFloat (f * c)%float)
  | PInt z => f <- lift (float_of_int z) ;; ret (PFloat (f * c)%float)
  | _ => raise TypeError
  end.

(** [v + 1] *)
Definition add_one (v : pyval) : M pyval :=
  match v with
  | PInt z => ret (PInt (z + 1))
  | PFloat f => ret (PFloat (f + 1)%float)
  | _ => raise TypeError
  end.

(** [v == s] for a string literal [s]: values of another type are unequal *)
Definition eq_str (v : pyval) (s : string) : bool :=
  match v with
  | PStr t => String.eqb t s
  | _ => false
  end.

(** [[body(v) for v in src]] *)
Definition list_comp (src : pyval) (body : pyval → M pyval) : M pyval :=
  items <- items_of src ;;
  out <- new_list [] ;;
  for_each items (λ v, x <- body v ;; list_append out x) ;;
  ret out.

End Py.
Import Py.

(** ** The library routines the program calls *)

Module Lib.

(** *** Text of values *)

(** [str(n)] for a Python int *)
Definition dec (z : Z) : string := NilZero.string_of_int (Z.to_int z).

(** The conversions to text that are not written out digit by digit:
    [repr] of a float (the shortest decimal string that reads back as the
    same float) and [repr] of a list object. *)
Class PyText := {
  float_repr : float → string;
  list_repr : list (list pyval) → loc → string
}.

(** [str(v)], which is also what [f"{v}"] puts in the string *)
Definition py_str `{PyText} (v : pyval) : M string :=
  λ w, (Ok match v with
           | PNone => "None"
           | PInt z => dec z
           | PFloat f => float_repr f
           | PStr s => s
           | PRef l => list_repr (heap w) l
           end, w).

(** The line terminator ["\n"] *)
Definition nl : string := String "010" "".

(** [sep.join(parts)] *)
Fixpoint join (sep : string) (parts : list string) : string :=
  match parts with
  | [] => ""
  | [p] => p
  | p :: ps => p +:+ sep +:+ join sep ps
  end.

(** [[f(x) for x in xs]] as a sequence of results, left to right *)
Fixpoint map_m {A B} (f : A → M B) (xs : list A) : M (list B) :=
  match xs with
  | [] => ret []
  | x :: xs' => y <- f x ;; ys <- map_m f xs' ;; ret (y :: ys)
  end.

(** *** Files *)

(** [open(path, "w")]: creates or truncates the file.  The handle is the
    path.  An [int] argument is a file descriptor; the world has no open
    descriptor, so that is an [OSError]. *)
Definition open_w (path : pyval) : M string :=
  match path with
  | PStr p => λ w, if writable w p
                   then (Ok p, set_files (<[p := FText ""]> (files w)) w)
                   else (Raise OSError, w)
  | PInt _ => raise OSError
  | _ => raise TypeError
  end.

(** [f.write(s)] *)
Definition file_write (f : string) (s : string) : M unit :=
  λ w, match files w !! f with
       | Some (FText t) => (Ok tt, set_files (<[f := FText (t +:+ s)]> (files w)) w)
       | _ => (Raise OSError, w)
       end.

(** [os.unlink(path)] *)
Definition unlink (path : string) : M unit :=
  λ w, match files w !! path with
       | Some _ => (Ok tt, set_files (delete path (files w)) w)
       | None => (Raise FileNotFoundError, w)
       end.

(** [print(s)] *)
Definition print (s : string) : M unit :=
  λ w, (Ok tt, set_stdout (stdout w ++ [s]) w).

(** [st.warning(...)] *)
Definition st_warning (e : exn) : M unit :=
  λ w, (Ok tt, set_ui (ui w ++ [UiWarning e]) w).

(** *** os.path *)

Fixpoint take_until (c : ascii) (s : list ascii) : list ascii :=
  match s with
  | [] => []
  | a :: s' => if Ascii.eqb a c then [] else a :: take_until c s'
  end.

Definition slash : ascii := "/"%char.
Definition dot : ascii := "."%char.

(** [os.path.splitext(p)[1]]: the text from the last dot of the last path
    component, unless only dots come before it in that component *)
Definition splitext_ext (p : string) : string :=
  let rev_base := take_until slash (rev (list_ascii_of_string p)) in
  let rev_tail := take_until dot rev_base in
  match drop (length rev_tail) rev_base with
  | [] => ""
  | d :: rev_stem =>
      if existsb (λ a, negb (Ascii.eqb a dot)) rev_stem
      then string_of_list_ascii (d :: rev rev_tail)
      else ""
  end.

Definition lower_ascii (a : ascii) : ascii :=
  let n := nat_of_ascii a in
  if (65 <=? n)%nat && (n <=? 90)%nat then ascii_of_nat (n + 32) else a.

(** [s.lower()], on ASCII letters *)
Definition lower (s : string) : string :=
  string_of_list_ascii (map lower_ascii (list_ascii_of_string s)).

(** [os.path.join(a, b)] *)
Definition path_join (a b : string) : string :=
  let starts_with_sep :=
    match list_ascii_of_string b with
    | c :: _ => Ascii.eqb c slash
    | [] => false
    end in
  let ends_with_sep :=
    match last (list_ascii_of_string a) with
    | Some c => Ascii.eqb c slash
    | None => false
    end in
  if starts_with_sep then b
  else if String.eqb a "" || ends_with_sep then a +:+ b
  else a +:+ "/" +:+ b.

(** *** OpenCV *)

(** The 8-bit luminance of a BGR pixel.  OpenCV computes a fixed-point
    weighted sum whose constants differ between releases; the code relies
    only on the result being an 8-bit sample. *)
Class Cv2 := {
  bgr2gray : Z → Z → Z → Z;
  bgr2gray_u8 : ∀ b g r, is_u8 b → is_u8 g → is_u8 r → is_u8 (bgr2gray b g r)
}.

(** [cv2.imread(path)]: the decoded image, or [None] when the file is
    missing or is not an image *)
Definition imread (path : string) : M (option image) :=
  λ w, (Ok match files w !! path with
           | Some (FImage im) => Some im
           | _ => None
           end, w).

Definition gray_of_pixel `{Cv2} (p : list Z) : Z :=
  match p with
  | b :: g :: r :: _ => bgr2gray b g r
  | _ => 0%Z
  end.

(** [cv2.cvtColor(src, cv2.COLOR_BGR2GRAY)]: the source must be non-empty
    and have three or four channels *)
Definition cvtColor_BGR2GRAY `{Cv2} (src : image) : M (array2 Z) :=
  let '(h, w) := shape (pixels src) in
  if (h =? 0)%nat || (w =? 0)%nat then raise CvError
  else if (nchan src =? 3)%nat || (nchan src =? 4)%nat
       then ret (map2 gray_of_pixel (pixels src))
       else raise CvError.

End Lib.
Import Lib.

(** ** main.py *)

Module Main.

Definition load_image (file_path : string) : M image :=
  let ext := lower (splitext_ext file_path) in
  if String.eqb ext ".pdf" then raise NotImplementedError
  else if String.eqb ext ".dwg" then raise NotImplementedError
  else λ w,
    if negb (cv2_present w) then (Raise ImportError, w)
    else (img <- imread file_path ;;
          match img with
          | None => raise FileNotFoundError
          | Some im => ret im
          end) w.

(** [gray.astype(np.float32) / 255.0]: a binary32 division per sample *)
Definition generate_height_map `{Cv2} (image : image) : M (array2 f32) :=
  λ w,
    if negb (cv2_present w) then (Raise AttributeError, w)
    else (gray <- cvtColor_BGR2GRAY image ;;
          ret (map2 (λ g, f32_div (f32_of_Z g) (f32_of_Z 255)) gray)) w.

(** One vertex [[float(x), float(y), float(z)]] per cell in row-major
    order; the face list is created and never filled. *)
Definition create_3d_mesh (height_map : array2 f32) : M (pyval * pyval) :=
  vertices <- new_list [] ;;
  faces <- new_list [] ;;
  let '(h, w) := shape height_map in
  for_each (range h) (λ y,
    for_each (range w) (λ x,
      z <- lift (match at2 height_map y x with
                 | Some z => Ok z
                 | None => Raise IndexError
                 end) ;;
      v <- new_list [PFloat (float_of_Z (Z.of_nat x));
                     PFloat (float_of_Z (Z.of_nat y));
                     PFloat (float_of_f32 z)] ;;
      list_append vertices v)) ;;
  ret (vertices, faces).

(** [[v[0], v[1], v[2] * c]] *)
Definition scaled_vertex (c : float) (v : pyval) : M pyval :=
  a <- getitem v 0 ;;
  b <- getitem v 1 ;;
  z <- getitem v 2 ;;
  z' <- mul_float z c ;;
  new_list [a; b; z'].

Definition apply_style (vertices style : pyval) : M pyval :=
  if eq_str style "classic" then list_comp vertices (scaled_vertex 0.5)
  else if eq_str style "nostalgic" then list_comp vertices (scaled_vertex 1.5)
  else ret vertices.

Definition apply_texture (vertices : pyval) (texture_image : image) : M pyval :=
  ret vertices.

Definition vertex_line `{PyText} (v : pyval) : M string :=
  a <- getitem v 0 ;; sa <- py_str a ;;
  b <- getitem v 1 ;; sb <- py_str b ;;
  c <- getitem v 2 ;; sc <- py_str c ;;
  ret ("v " +:+ sa +:+ " " +:+ sb +:+ " " +:+ sc +:+ nl).

Definition face_line `{PyText} (face : pyval) : M string :=
  idxs <- items_of face ;;
  parts <- map_m (λ idx, n <- add_one idx ;; py_str n) idxs ;;
  ret ("f " +:+ join " " parts +:+ nl).

Definition save_obj `{PyText} (vertices faces output_path : pyval) : M unit :=
  f <- open_w output_path ;;
  vs <- items_of vertices ;;
  for_each vs (λ v, line <- vertex_line v ;; file_write f line) ;;
  fs <- items_of faces ;;
  for_each fs (λ face, line <- face_line face ;; file_write f line).

(** The command line after [argparse]: absent options are [None]. *)
Record argv := Argv {
  arg_input_file : string;
  arg_style : option string;
  arg_texture : option string;
  arg_output : option string
}.

Record namespace := Namespace {
  input_file : string;
  style : string;
  texture : option string;
  output : string
}.

Definition choices : list string := ["modern"; "classic"; "nostalgic"].

(** [parser.parse_args()]: defaults filled in, [--style] checked against
    its choices *)
Definition parse_args (a : argv) : M namespace :=
  let st := default "modern" (arg_style a) in
  if bool_decide (st ∈ choices)
  then ret (Namespace (arg_input_file a) st (arg_texture a)
                      (default "output.obj" (arg_output a)))
  else raise SystemExit.

(** [if args.texture:] holds for a path that is given and not empty. *)
Definition main `{Cv2} `{PyText} (a : argv) : M unit :=
  args <- parse_args a ;;
  image <- load_image (input_file args) ;;
  height_map <- generate_height_map image ;;
  mesh <- create_3d_mesh height_map ;;
  let '(vertices, faces) := mesh in
  vertices <- apply_style vertices (PStr (style args)) ;;
  vertices <- match texture args with
              | Some t =>
                  if String.eqb t "" then ret vertices
                  else (texture_img <- load_image t ;;
                        apply_texture vertices texture_img)
              | None => ret vertices
              end ;;
  save_obj vertices faces (PStr (output args)) ;;
  print ("Model saved to " +:+ output args).

End Main.
Import Main.

(** ** app.py: the statements of the Convert branch that call [main.py] *)

Module App.

(** Lines 72-84: the optional texture.  [tex] is the temporary file that
    receives the upload: the path [NamedTemporaryFile] chose and the
    uploaded content. *)
Definition texture_block (tex : option (string * file)) (vertices_styled : pyval)
  : M pyval :=
  match tex with
  | None => ret vertices_styled
  | Some (tex_path, content) =>
      (λ w, (Ok tt, set_files (<[tex_path := content]> (files w)) w)) ;;
      try_finally
        (try_except
           (texture_img <- load_image tex_path ;;
            apply_texture vertices_styled texture_img)
           (λ e, st_warning e ;; ret vertices_styled))
        (unlink tex_path)
  end.

(** Lines 87-88.  [save_obj(output_path, vertices_styled, faces)] binds by
    position: [vertices := output_path], [faces := vertices_styled],
    [output_path := faces]. *)
Definition save_step `{PyText} (tmpdir : string) (vertices_styled faces : pyval)
  : M unit :=
  let output_path := path_join tmpdir "output.obj" in
  save_obj (PStr output_path) vertices_styled faces.

(** Lines 64-88, from the image array to the written file *)
Definition convert `{Cv2} `{PyText} (img_np : image) (style : string)
    (tex : option (string * file)) (tmpdir : string) : M unit :=
  height_map <- generate_height_map img_np ;;
  mesh <- create_3d_mesh height_map ;;
  let '(vertices, faces) := mesh in
  vertices_styled <- apply_style vertices (PStr style) ;;
  vertices_styled <- texture_block tex vertices_styled ;;
  save_step tmpdir vertices_styled faces.

End App.

(** ** Reading a mesh back from OBJ text

    The round-trip property speaks of parsing the [v], [vt] and [f] lines
    of the written file.  The program has no reader; this one follows the
    line formats of [save_obj]: fields separated by blanks, a face field
    either [i] or [i/j], indices written from 1. *)

Module ObjReader.

Record mesh := Mesh {
  vertices : list (float * float * float);
  uvs : list (float * float);
  faces : list (list Z)
}.

Fixpoint split_on (c : ascii) (s : string) : list string :=
  match s with
  | EmptyString => [EmptyString]
  | String a s' =>
      if Ascii.eqb a c then EmptyString :: split_on c s'
      else match split_on c s' with
           | t :: ts => String a t :: ts
           | [] => [String a EmptyString]
           end
  end.

Definition nonempty (s : string) : bool :=
  match s with
  | EmptyString => false
  | String _ _ => true
  end.

Definition words (line : string) : list string :=
  List.filter nonempty (split_on " " line).

Definition lines (text : string) : list string :=
  split_on "010" text.

(** A face field [i] or [i/j]: the vertex index, from 0 *)
Definition read_index (field : string) : option Z :=
  match split_on "/" field with
  | i :: _ =>
      match NilZero.int_of_string i with
      | Some d => Some (Z.of_int d - 1)%Z
      | None => None
      end
  | [] => None
  end.

Fixpoint read_all {A B} (f : A → option B) (xs : list A) : option (list B) :=
  match xs with
  | [] => Some []
  | x :: xs' =>
      match f x, read_all f xs' with
      | Some y, Some ys => Some (y :: ys)
      | _, _ => None
      end
  end.

(** One line put in front of the mesh read from the lines after it *)
Definition read_line (read_float : string → option float) (line : string) (m : mesh)
  : option mesh :=
  match words line with
  | [] => Some m
  | kind :: fields =>
      if String.eqb kind "v" then
        match read_all read_float fields with
        | Some [x; y; z] => Some (Mesh ((x, y, z) :: vertices m) (uvs m) (faces m))
        | _ => None
        end
      else if String.eqb kind "vt" then
        match read_all read_float fields with
        | Some [u; v] => Some (Mesh (vertices m) ((u, v) :: uvs m) (faces m))
        | _ => None
        end
      else if String.eqb kind "f" then
        match read_all read_index fields with
        | Some idxs => Some (Mesh (vertices m) (uvs m) (idxs :: faces m))
        | None => None
        end
      else Some m
  end.

Fixpoint read_lines (read_float : string → option float) (ls : list string)
  : option mesh :=
  match ls with
  | [] => Some (Mesh [] [] [])
  | l :: ls' =>
      match read_lines read_float ls' with
      | Some m => read_line read_float l m
      | None => None
      end
  end.

Definition parse_obj (read_float : string → option float) (text : string)
  : option mesh :=
  read_lines read_float (lines text).

End ObjReader.

(** ** Views of the heap *)

Module View.

(** [v] is the list object with these items *)
Definition is_list (h : list (list pyval)) (v : pyval) (items : list pyval) : Prop :=
  ∃ l, v = PRef l ∧ h !! l = Some items.

Definition vertex_obj (p : float * float * float) : list pyval :=
  let '(x, y, z) := p in [PFloat x; PFloat y; PFloat z].

(** [v] is a list of [[x, y, z]] lists with float components *)
Definition holds_vertices (h : list (list pyval)) (v : pyval)
    (vs : list (float * float * float)) : Prop :=
  ∃ refs, is_list h v refs ∧
          Forall2 (λ r p, is_list h r (vertex_obj p)) refs vs.

(** [v] is a list of lists of ints *)
Definition holds_faces (h : list (list pyval)) (v : pyval) (fs : list (list Z)) : Prop :=
  ∃ refs, is_list h v refs ∧
          Forall2 (λ r idxs, is_list h r (map PInt idxs)) refs fs.

(** The vertex of cell [(y, x)] with sample [z] *)
Definition cell_vertex (y x : nat) (z : f32) : float * float * float :=
  (float_of_Z (Z.of_nat x), float_of_Z (Z.of_nat y), float_of_f32 z).

(** The vertices of a height map, cell by cell in the order of the two loops *)
Definition grid_vertices (hm : array2 f32) : list (float * float * float) :=
  flat_map (λ y,
    flat_map (λ x, match at2 hm y x with
                   | Some z => [cell_vertex y x z]
                   | None => []
                   end) (range (snd (shape hm))))
    (range (fst (shape hm))).

Definition scale_z (c : float) (p : float * float * float) : float * float * float :=
  let '(x, y, z) := p in (x, y, (z * c)%float).

(** The multiplier of a style, [None] for the styles that return the
    vertex list itself *)
Definition style_factor (style : string) : option float :=
  if String.eqb style "classic" then Some 0.5%float
  else if String.eqb style "nostalgic" then Some 1.5%float
  else None.

Definition styled (style : string) (vs : list (float * float * float))
  : list (float * float * float) :=
  match style_factor style with
  | Some c => map (scale_z c) vs
  | None => vs
  end.

(** The text of a mesh, line by line as [save_obj] writes it *)
Definition vertex_text `{PyText} (p : float * float * float) : string :=
  let '(x, y, z) := p in
  "v " +:+ float_repr x +:+ " " +:+ float_repr y +:+ " " +:+ float_repr z +:+ nl.

Definition face_text (idxs : list Z) : string :=
  "f " +:+ join " " (map (λ i, dec (i + 1)) idxs) +:+ nl.

Fixpoint concat_text (parts : list string) : string :=
  match parts with
  | [] => ""
  | p :: ps => p +:+ concat_text ps
  end.

Definition obj_text `{PyText} (vs : list (float * float * float)) (fs : list (list Z))
  : string :=
  concat_text (map vertex_text vs) +:+ concat_text (map face_text fs).

End View.
Import View.

(** ** Predicates on runs

    What a loop of the program does to the heap and to the file it writes,
    stated once so that the loops of [create_3d_mesh], [apply_style] and
    [save_obj] can be followed statement by statement. *)

Module Frame.
(** The heap after [items] were created and appended, in order, to the list
    that sits right after [h] *)
Definition pushed (h : list (list pyval)) (acc : list pyval) (tl items : list (list pyval))
  : list (list pyval) :=
  h ++ (acc ++ map PRef (seq (S (length h + length tl)) (length items))) :: (tl ++ items).

Definition pushes (h : list (list pyval)) (m : M unit) (items : list (list pyval)) : Prop :=
  ∀ w acc tl, heap w = h ++ acc :: tl →
              m w = (Ok tt, set_heap (pushed h acc tl items) w).
End Frame.

Module Grid.
(** A row of the grid: one vertex per cell that exists *)
Definition row_cells (hm : array2 f32) (y x : nat) : list (float * float * float) :=
  match at2 hm y x with
  | Some z => [cell_vertex y x z]
  | None => []
  end.
End Grid.

Module Writes.
(** [m] appends [s] to the text file [p], in a world whose heap is [h] *)
Definition writes (h : list (list pyval)) (p : string) (m : M unit) (s : string) : Prop :=
  ∀ w t, heap w = h → files w !! p = Some (FText t) →
         m w = (Ok tt, set_files (<[p := FText (t +:+ s)]> (files w)) w).
End Writes.

(** ** Fields of the lines of an OBJ text *)

Module Words.
Import ObjReader.

(** [c] does not occur in [s] *)
Fixpoint avoids (c : ascii) (s : string) : bool :=
  match s with
  | EmptyString => true
  | String a s' => negb (Ascii.eqb a c) && avoids c s'
  end.

(** A field of a line: not empty, no blank, no line end *)
Definition word (s : string) : bool :=
  nonempty s && avoids " " s && avoids "010" s.

(** A float whose text is a field that reads back as the same float *)
Definition reads_back `{PyText} (read_float : string → option float) (x : float) : Prop :=
  word (float_repr x) = true ∧ read_float (float_repr x) = Some x.
(** The characters of a decimal integer *)
Definition dec_char (a : ascii) : bool :=
  let n := nat_of_ascii a in ((48 <=? n) && (n <=? 57)) || (n =? 45).

Fixpoint all_chars (P : ascii → bool) (s : string) : bool :=
  match s with
  | EmptyString => true
  | String a s' => P a && all_chars P s'
  end.
(** The three coordinates of a vertex read back *)
Definition vertex_reads `{PyText} (read_float : string → option float)
  (v : float * float * float) : Prop :=
  let '(x, y, z) := v in
  reads_back read_float x ∧ reads_back read_float y ∧ reads_back read_float z.

Definition vertex_fields `{PyText} (v : float * float * float) : list string :=
  let '(x, y, z) := v in ["v"; float_repr x; float_repr y; float_repr z].

Definition face_fields (idxs : list Z) : list string :=
  "f" :: map (λ i, dec (i + 1)) idxs.
End Words.

(** ** The height map as a function of the image *)

Module Height.
(** The height sample of an 8-bit luminance *)
Definition sample_of (g : Z) : f32 := f32_div (f32_of_Z g) (f32_of_Z 255).

(** The height map of an image, as [generate_height_map] computes it *)
Definition height_of `{Cv2} (im : image) : array2 f32 :=
  map2 sample_of (map2 gray_of_pixel (pixels im)).

(** [0 <= z <= 1], as a binary32 value and as the Python float it becomes *)
Definition in_unit (z : f32) : bool :=
  SFleb f32_zero z && SFleb z f32_one
  && (0 <=? float_of_f32 z)%float && (float_of_f32 z <=? 1)%float.

(** A path [load_image] reads as the image [im] *)
Definition decodes (w : world) (path : string) (im : image) : Prop :=
  files w !! path = Some (FImage im) ∧
  lower (splitext_ext path) ≠ ".pdf" ∧
  lower (splitext_ext path) ≠ ".dwg".
End Height.
Import Height.

Module Run.
(** The texture option names nothing, or a file that decodes *)
Definition texture_ok (w : world) (t : option string) : Prop :=
  match t with
  | None => True
  | Some p => p = "" ∨ ∃ im, decodes w p im
  end.
End Run.

(** ** Concrete inputs for the examples *)

Module Samples.

(** Luminance with the BT.601 weights in 15-bit fixed point, rounded *)
Definition bt601 (b g r : Z) : Z :=
  ((3735 * b + 19235 * g + 9798 * r + 16384) / 32768)%Z.

Lemma bt601_u8 b g r : is_u8 b → is_u8 g → is_u8 r → is_u8 (bt601 b g r).
Proof.
  unfold is_u8, bt601. intros Hb Hg Hr. split.
  - apply Z.div_pos; lia.
  - apply Z.lt_succ_r, Z.div_lt_upper_bound; lia.
Qed.

Definition cv_bt601 : Cv2 := {| bgr2gray := bt601; bgr2gray_u8 := bt601_u8 |}.

(** The integer a finite float is equal to, if it is one *)
Definition integral_value (f : float) : option Z :=
  match Prim2SF f with
  | S754_zero _ => Some 0%Z
  | S754_finite s m e =>
      let v := if (0 <=? e)%Z then Some (Z.pos m * 2 ^ e)%Z
               else if (Z.pos m mod 2 ^ (- e) =? 0)%Z then Some (Z.pos m / 2 ^ (- e))%Z
               else None in
      match v with
      | Some n => Some (if s then (- n)%Z else n)
      | None => None
      end
  | _ => None
  end.

(** [repr] of the floats that are integers below 1e16, which Python prints
    as the integer followed by [.0]; other floats are not printed in the
    examples and get a placeholder. *)
Definition repr_integral (f : float) : string :=
  match integral_value f with
  | Some n => if (Z.abs n <? 10 ^ 16)%Z
              then (if PrimFloat.get_sign f && (n =? 0)%Z then "-0.0" else dec n +:+ ".0")
              else "?"
  | None => "?"
  end.

Definition text_integral : PyText :=
  {| float_repr := repr_integral; list_repr := λ _ _, "[...]" |}.

(** [float(s)] for the strings [repr_integral] produces *)
Definition read_integral (s : string) : option float :=
  match ObjReader.split_on "." s with
  | [i; "0"%string] =>
      match NilZero.int_of_string i with
      | Some d => Some (float_of_Z (Z.of_int d))
      | None => None
      end
  | _ => None
  end.

Definition black : list Z := [0; 0; 0]%Z.
Definition white : list Z := [255; 255; 255]%Z.

(** A 2 x 2 colour image, a 1 x 2 colour image (one row) and a 2 x 2
    single-channel image *)
Definition image_2x2 : image := Image (Array2 (2, 2) [[black; white]; [black; black]]) 3.
Definition image_1x2 : image := Image (Array2 (1, 2) [[black; white]]) 3.
Definition image_gray : image := Image (Array2 (2, 2) [[[0%Z]; [255%Z]]; [[0%Z]; [0%Z]]]) 1.

Definition height_2x2 : array2 f32 :=
  Array2 (2, 2) [[f32_zero; f32_one]; [f32_zero; f32_zero]].
Definition height_1x2 : array2 f32 :=
  Array2 (1, 2) [[f32_zero; f32_one]].

Definition sample_files : gmap string file :=
  <["drawing.png" := FImage image_2x2]>
    (<["strip.png" := FImage image_1x2]>
       (<["broken.png" := FText "not an image"]> ∅)).

Definition sample_world : world :=
  World [] sample_files (λ _, true) true [] [].

End Samples.

Module SampleMesh.
(** A heap that holds a mesh of two vertices and one face *)
Definition mesh_heap : list (list pyval) :=
  [ [PRef 1; PRef 2];
    [PFloat 0; PFloat 0; PFloat 1];
    [PFloat 1; PFloat 0; PFloat 0];
    [PRef 4];
    [PInt 0; PInt 1; PInt 1] ].
Definition mesh_world : world := World mesh_heap ∅ (λ _, true) true [] [].
Definition mesh_vertices : list (float * float * float) :=
  [(0, 0, 1)%float; (1, 0, 0)%float].
Definition mesh_faces : list (list Z) := [[0; 1; 1]%Z].
End SampleMesh.

(** ** Orders and bounds on the heights *)

Module Relief.
(** [a < b], as binary32 values and as the Python floats they become *)
Definition rises (a b : f32) : bool :=
  SFltb a b && (float_of_f32 a <? float_of_f32 b)%float.

(** Every entry is below all the later ones *)
Fixpoint increasing (l : list f32) : bool :=
  match l with
  | [] => true
  | a :: l' => forallb (rises a) l' && increasing l'
  end.
End Relief.

Module Bounds.
(** The largest height a style can give: its factor, 1 for the styles
    that leave the vertices alone *)
Definition style_bound (style : string) : float :=
  match style_factor style with
  | Some c => c
  | None => 1%float
  end.

(** [0 <= z <= b] on Python floats *)
Definition within (b z : float) : bool := (0 <=? z)%float && (z <=? b)%float.

(** The height of a sample after scaling, for each factor the code has *)
Definition sample_within (g : Z) : bool :=
  let z := float_of_f32 (sample_of g) in
  within 1 z && within 0.5 (z * 0.5) && within 1.5 (z * 1.5).
End Bounds.

(** ** The ends of a command line run *)

Module Outcomes.
(** The exceptions a run of [main] can end with *)
Definition main_errors : list exn :=
  [SystemExit; NotImplementedError; ImportError; FileNotFoundError; OSError].
End Outcomes.

(** ** app.py: the Convert branch, lines 41-102 *)

Module Page.
Import App.

(** A call that returns and leaves the heap, the files and the standard
    output alone *)
Definition page_only (m : M unit) : Prop :=
  ∀ w, fst (m w) = Ok tt
       ∧ heap (snd (m w)) = heap w
       ∧ files (snd (m w)) = files w
       ∧ stdout (snd (m w)) = stdout w.

(** The Streamlit calls of the branch: each shows something on the page. *)
Class Streamlit := {
  st_error : option exn → M unit;          (* the fixed text, or the text of [e] *)
  st_download_button : file → M unit;
  st_success : M unit;
  st_error_page : ∀ e, page_only (st_error e);
  st_download_button_page : ∀ d, page_only (st_download_button d);
  st_success_page : page_only st_success
}.

(** [except Exception] does not catch [SystemExit] *)
Definition is_exception (e : exn) : bool :=
  match e with
  | SystemExit => false
  | _ => true
  end.

(** [try: x = body except Exception as e: handler(e) else: orelse]: an
    exception of [orelse] is not caught *)
Definition try_except_else {A B} (body : M A) (handler : exn → M B) (orelse : A → M B)
  : M B :=
  λ w, match body w with
       | (Ok a, w') => orelse a w'
       | (Raise e, w') => if is_exception e then handler e w' else (Raise e, w')
       end.

(** [with tempfile.NamedTemporaryFile(delete=False, ...) as tmp:
    tmp.write(upload.read())]: the file at the chosen path holds the upload *)
Definition write_upload (path : string) (content : file) : M unit :=
  λ w, (Ok tt, set_files (<[path := content]> (files w)) w).

(** [os.path.exists(path)] *)
Definition path_exists (path : string) : M bool :=
  λ w, (Ok (bool_decide (is_Some (files w !! path))), w).

(** [open(path, "rb")] *)
Definition open_rb (path : string) : M file :=
  λ w, match files w !! path with
       | Some f => (Ok f, w)
       | None => (Raise FileNotFoundError, w)
       end.

(** [isinstance(img, PILImage)].  Line 6 binds [PILImage] to the module
    [PIL.Image] ([from PIL import Image as PILImage]), not to a class, and
    [isinstance] raises [TypeError] when its second argument is not a type,
    a tuple of types or a union. *)
Definition isinstance_PILImage (img : image) : M bool := raise TypeError.

(** [np.array(img)] *)
Definition np_array (img : image) : M image := ret img.

(** Lines 41-102.  [uploaded] and [tex] are the two uploads, each with
    the path of the temporary file that receives it. *)
Definition convert_branch `{Cv2} `{PyText} `{Streamlit}
    (uploaded : option (string * file)) (style : string)
    (tex : option (string * file)) (tmpdir : string) : M unit :=
  match uploaded with
  | None => st_error None
  | Some (input_path, content) =>
      write_upload input_path content ;;
      try_finally
        (try_except_else (load_image input_path)
           (λ e, st_error (Some e) ;; unlink input_path)
           (λ img,
              is_pil <- isinstance_PILImage img ;;
              img_np <- (if is_pil : bool then np_array img else ret img) ;;
              convert img_np style tex tmpdir ;;
              obj_file <- open_rb (path_join tmpdir "output.obj") ;;
              st_download_button obj_file ;;
              st_success))
        (present <- path_exists input_path ;;
         if present : bool then unlink input_path else ret tt)
  end.

End Page.

(** ** More inputs for the examples *)

Module SampleRuns.
Import Samples SampleMesh Page.

(** A world where no file can be created *)
Definition read_only_world : world :=
  World [] sample_files (λ _, false) true [] [].

(** A world whose output file already holds a text *)
Definition stale_world : world :=
  World mesh_heap (<["mesh.obj" := FText "old text"]> ∅) (λ _, true) true [] [].

(** A vertex list whose second vertex has two components; the third entry
    is the first vertex again *)
Definition short_vertex_world : world :=
  World [[PRef 1; PRef 2; PRef 1]; [PFloat 0; PFloat 0; PFloat 1]; [PFloat 1; PFloat 0];
         [PRef 4]; [PInt 0; PInt 1; PInt 1]] ∅ (λ _, true) true [] [].

(** A world without OpenCV *)
Definition no_cv2_world : world :=
  World [] sample_files (λ _, true) false [] [].

(** A page that shows nothing *)
Definition quiet_page : Streamlit :=
  {| st_error := λ _, ret tt;
     st_download_button := λ _, ret tt;
     st_success := ret tt;
     st_error_page := λ _ _, conj eq_refl (conj eq_refl (conj eq_refl eq_refl));
     st_download_button_page := λ _ _, conj eq_refl (conj eq_refl (conj eq_refl eq_refl));
     st_success_page := λ _, conj eq_refl (conj eq_refl (conj eq_refl eq_refl)) |}.
End SampleRuns.

(** * Properties *)

Import App ObjReader Frame Grid Writes Words Run Samples SampleMesh.

(** ** Heap frames: loops that build lists *)

Lemma set_heap_twice h1 h2 w : set_heap h2 (set_heap h1 w) = set_heap h2 w.
Proof. reflexivity. Qed.

Lemma set_heap_same w : set_heap (heap w) w = w.
Proof. by destruct w. Qed.

Lemma pushed_nil h acc tl : pushed h acc tl [] = h ++ acc :: tl.
Proof. unfold pushed. simpl. by rewrite !app_nil_r. Qed.

Lemma pushed_app h acc tl i1 i2 :
  pushed h (acc ++ map PRef (seq (S (length h + length tl)) (length i1))) (tl ++ i1) i2
  = pushed h acc tl (i1 ++ i2).
Proof.
  unfold pushed. rewrite !length_app, seq_app, map_app, <- !app_assoc.
  repeat f_equal. lia.
Qed.

Lemma pushes_ret h : pushes h (ret tt) [].
Proof. intros w acc tl Hw. unfold ret. by rewrite pushed_nil, <- Hw, set_heap_same. Qed.

Lemma pushes_bind h m1 m2 i1 i2 :
  pushes h m1 i1 → pushes h m2 i2 → pushes h (m1 ;; m2) (i1 ++ i2).
Proof.
  intros H1 H2 w acc tl Hw. unfold bind. rewrite (H1 _ _ _ Hw).
  erewrite H2 by reflexivity. by rewrite set_heap_twice, pushed_app.
Qed.

Lemma pushes_for_each {A} h (xs : list A) body block :
  (∀ x, x ∈ xs → pushes h (body x) (block x)) →
  pushes h (for_each xs body) (flat_map block xs).
Proof.
  induction xs as [|x xs IH]; intros Hb; simpl.
  - apply pushes_ret.
  - apply pushes_bind.
    + apply Hb. left.
    + apply IH. intros y Hy. apply Hb. by right.
Qed.

Lemma pushes_push h item :
  pushes h (v <- new_list item ;; list_append (PRef (length h)) v) [item].
Proof.
  intros w acc tl Hw. unfold bind, new_list, list_append. simpl.
  rewrite Hw. rewrite <- app_assoc. simpl.
  rewrite list_lookup_middle by done.
  f_equal. unfold set_heap. simpl. f_equal.
  unfold pushed. simpl.
  rewrite (insert_app_r_alt h) by lia. rewrite Nat.sub_diag. simpl.
  rewrite length_app. simpl. repeat f_equal. lia.
Qed.

(** *** Nested loops over a grid *)

Lemma flat_map_length_uniform {A B} (g : A → list B) (xs : list A) k :
  (∀ x, x ∈ xs → length (g x) = k) → length (flat_map g xs) = length xs * k.
Proof.
  induction xs as [|x xs IH]; intros Hk; simpl; [done|].
  rewrite length_app, Hk, IH; [lia| |left]. intros y Hy. apply Hk. by right.
Qed.

Lemma flat_map_seq_lookup {B} (g : nat → list B) s n k i j :
  (∀ y, s ≤ y < s + n → length (g y) = k) → i < n → j < k →
  flat_map g (seq s n) !! (i * k + j) = g (s + i) !! j.
Proof.
  revert s i. induction n as [|n IH]; intros s i Hk Hi Hj; [lia|]. simpl.
  destruct i as [|i]; simpl.
  - rewrite lookup_app_l by (rewrite Hk; lia). by rewrite Nat.add_0_r.
  - rewrite lookup_app_r by (rewrite Hk; lia).
    rewrite Hk by lia. replace (k + i * k + j - k) with (i * k + j) by lia.
    rewrite IH; [|intros; apply Hk; lia|lia|done]. f_equal. f_equal. lia.
Qed.

Lemma map_flat_map {A B C} (f : B → C) (g : A → list B) xs :
  map f (flat_map g xs) = flat_map (λ x, map f (g x)) xs.
Proof. induction xs; simpl; [done|]. by rewrite map_app, IHxs. Qed.

Lemma flat_map_ext_in {A B} (g1 g2 : A → list B) xs :
  (∀ x, x ∈ xs → g1 x = g2 x) → flat_map g1 xs = flat_map g2 xs.
Proof.
  induction xs as [|x xs IH]; intros He; simpl; [done|].
  rewrite He by left. rewrite IH; [done|]. intros y Hy. apply He. by right.
Qed.

Lemma elem_of_range n x : x ∈ range n ↔ x < n.
Proof. unfold range. rewrite elem_of_seq. lia. Qed.

Lemma at2_wf {A} (a : array2 A) y x :
  wf_array2 a → y < fst (shape a) → x < snd (shape a) → is_Some (at2 a y x).
Proof.
  intros [Hr Hc] Hy Hx. unfold at2.
  destruct (lookup_lt_is_Some_2 (rows a) y) as [r Hrow]; [lia|]. rewrite Hrow.
  apply lookup_lt_is_Some_2.
  rewrite Forall_forall in Hc. rewrite (Hc r); [done|].
  eapply list_elem_of_lookup_2. eauto.
Qed.

Lemma row_cells_length hm y x :
  wf_array2 hm → y < fst (shape hm) → x < snd (shape hm) → length (row_cells hm y x) = 1.
Proof.
  intros Hwf Hy Hx. unfold row_cells.
  by destruct (at2_wf hm y x Hwf Hy Hx) as [z ->].
Qed.

Lemma grid_vertices_length hm :
  wf_array2 hm → length (grid_vertices hm) = fst (shape hm) * snd (shape hm).
Proof.
  intros Hwf. unfold grid_vertices.
  rewrite (flat_map_length_uniform _ _ (snd (shape hm))).
  - unfold range. by rewrite length_seq.
  - intros y Hy%elem_of_range.
    rewrite (flat_map_length_uniform _ _ 1).
    + unfold range. rewrite length_seq. lia.
    + intros x Hx%elem_of_range. by apply (row_cells_length hm y x).
Qed.

Lemma grid_vertices_lookup hm row col z :
  wf_array2 hm → at2 hm row col = Some z →
  row < fst (shape hm) → col < snd (shape hm) →
  grid_vertices hm !! (row * snd (shape hm) + col) = Some (cell_vertex row col z).
Proof.
  intros Hwf Hz Hrow Hcol. unfold grid_vertices, range.
  rewrite (flat_map_seq_lookup _ 0 _ (snd (shape hm))); [|  |done|done].
  - simpl. replace col with (col * 1 + 0) at 1 by lia.
    rewrite (flat_map_seq_lookup _ 0 _ 1); [|  |done|lia].
    + simpl. by rewrite Hz.
    + intros x Hx. apply (row_cells_length hm row x); [done..|lia].
  - intros y Hy. rewrite (flat_map_length_uniform _ _ 1).
    + rewrite length_seq. lia.
    + intros x Hx%elem_of_seq. apply (row_cells_length hm y x); [done|lia|lia].
Qed.

Lemma grid_items hm :
  map vertex_obj (grid_vertices hm) =
  flat_map (λ y, flat_map (λ x, map vertex_obj (row_cells hm y x))
                   (range (snd (shape hm)))) (range (fst (shape hm))).
Proof.
  unfold grid_vertices. rewrite map_flat_map.
  apply flat_map_ext_in. intros y _. by rewrite map_flat_map.
Qed.

Lemma pushes_cell hm h y x :
  wf_array2 hm → y < fst (shape hm) → x < snd (shape hm) →
  pushes h
    (z <- lift (match at2 hm y x with
                | Some z => Ok z
                | None => Raise IndexError
                end) ;;
     v <- new_list [PFloat (float_of_Z (Z.of_nat x));
                    PFloat (float_of_Z (Z.of_nat y));
                    PFloat (float_of_f32 z)] ;;
     list_append (PRef (length h)) v)
    (map vertex_obj (row_cells hm y x)).
Proof.
  intros Hwf Hy Hx. unfold row_cells.
  destruct (at2_wf hm y x Hwf Hy Hx) as [z ->].
  intros w acc tl Hw. unfold bind at 1. unfold lift.
  by apply (pushes_push h).
Qed.

Lemma create_3d_mesh_heap hm w :
  wf_array2 hm →
  create_3d_mesh hm w =
    (Ok (PRef (length (heap w)), PRef (S (length (heap w)))),
     set_heap (heap w
               ++ map PRef (seq (length (heap w) + 2) (length (grid_vertices hm)))
               :: [] :: map vertex_obj (grid_vertices hm)) w).
Proof.
  intros Hwf. unfold create_3d_mesh.
  unfold bind at 1. unfold new_list at 1.
  unfold bind at 1. unfold new_list at 1. simpl heap.
  rewrite <- (length_map vertex_obj (grid_vertices hm)), grid_items.
  destruct (shape hm) as [h wd] eqn:Hshape. simpl fst. simpl snd.
  unfold bind at 1.
  rewrite (pushes_for_each (heap w) (range h) _
             (λ y, flat_map (λ x, map vertex_obj (row_cells hm y x)) (range wd))
             ltac:(intros y Hy%elem_of_range; apply pushes_for_each;
                   intros x Hx%elem_of_range;
                   apply pushes_cell; [done|by rewrite Hshape..])
             _ [] [[]]).
  - unfold ret, pushed. rewrite !set_heap_twice. simpl.
    rewrite length_app. simpl. do 2 f_equal; [f_equal; f_equal; lia|].
    do 5 f_equal. lia.
  - simpl. by rewrite <- app_assoc.
Qed.

(** *** Vertex lists in the heap *)

Lemma is_list_extend h h' v items : is_list h v items → is_list (h ++ h') v items.
Proof. intros (l & -> & Hl). exists l. split; [done|]. by apply lookup_app_l_Some. Qed.

Lemma holds_vertices_extend h h' v vs :
  holds_vertices h v vs → holds_vertices (h ++ h') v vs.
Proof.
  intros (refs & Hv & Hall). exists refs. split; [by apply is_list_extend|].
  eapply Forall2_impl; [exact Hall|]. intros r p Hr. by apply is_list_extend.
Qed.

Lemma holds_vertices_length h v vs refs :
  is_list h v refs → holds_vertices h v vs → length refs = length vs.
Proof.
  intros (l & -> & Hl) (refs' & (l' & [= <-] & Hl') & Hall).
  rewrite Hl in Hl'. injection Hl' as <-. by eapply Forall2_length.
Qed.

(** A list built by the loops: its references point to the vertices
    allocated after it *)
Lemma holds_fresh h tl vs :
  holds_vertices
    (h ++ map PRef (seq (S (length h + length tl)) (length vs))
       :: (tl ++ map vertex_obj vs))
    (PRef (length h)) vs.
Proof.
  exists (map PRef (seq (S (length h + length tl)) (length vs))). split.
  - exists (length h). split; [done|]. by apply list_lookup_middle.
  - apply Forall2_same_length_lookup_2.
    + by rewrite length_map, length_seq.
    + intros i r p Hr Hp. rewrite list_lookup_fmap in Hr.
      apply lookup_lt_Some in Hp as Hi.
      rewrite lookup_seq_lt in Hr by done. injection Hr as <-.
      exists (S (length h + length tl) + i). split; [done|].
      rewrite lookup_app_r by lia.
      replace (S (length h + length tl) + i - length h) with (S (length tl + i)) by lia.
      simpl. rewrite lookup_app_r by lia.
      replace (length tl + i - length tl) with i by lia.
      by rewrite list_lookup_fmap, Hp.
Qed.

Lemma pushes_for_each2 {A B} h (xs : list A) (ys : list B) body item :
  Forall2 (λ x y, pushes h (body x) [item y]) xs ys →
  pushes h (for_each xs body) (map item ys).
Proof.
  induction 1 as [|x y xs ys Hxy _ IH]; simpl.
  - apply pushes_ret.
  - by apply (pushes_bind h _ _ [item y]).
Qed.

Lemma pushes_scaled h c r p :
  is_list h r (vertex_obj p) →
  pushes h (x <- scaled_vertex c r ;; list_append (PRef (length h)) x)
    [vertex_obj (scale_z c p)].
Proof.
  intros (l & -> & Hl) w acc tl Hw. destruct p as [[x y] z]. simpl in Hl.
  assert (heap w !! l = Some [PFloat x; PFloat y; PFloat z]) as Hwl.
  { rewrite Hw. by apply lookup_app_l_Some. }
  unfold scaled_vertex, bind at 1 2. unfold getitem at 1. rewrite Hwl. simpl.
  unfold bind at 1. unfold getitem at 1. rewrite Hwl. simpl.
  unfold bind at 1. unfold getitem at 1. rewrite Hwl. simpl.
  change (bind (ret (PFloat (z * c))) ?k w) with (k (PFloat (z * c)%float) w).
  cbv beta.
  by apply (pushes_push h [PFloat x; PFloat y; PFloat (z * c)]).
Qed.

Lemma list_comp_scaled c v vs w :
  holds_vertices (heap w) v vs →
  list_comp v (scaled_vertex c) w =
    (Ok (PRef (length (heap w))),
     set_heap (heap w ++ map PRef (seq (S (length (heap w))) (length vs))
                      :: map vertex_obj (map (scale_z c) vs)) w).
Proof.
  intros (refs & (l & -> & Hl) & Hall). unfold list_comp.
  unfold bind at 1. unfold items_of. rewrite Hl.
  unfold bind at 1. unfold new_list at 1.
  unfold bind at 1.
  assert (Forall2 (λ r p, pushes (heap w)
            (x <- scaled_vertex c r ;; list_append (PRef (length (heap w))) x)
            [vertex_obj (scale_z c p)]) refs vs) as Hbody.
  { eapply Forall2_impl; [exact Hall|]. intros r p Hr. by apply pushes_scaled. }
  rewrite (pushes_for_each2 (heap w) refs vs _ (λ p, vertex_obj (scale_z c p))
             Hbody _ [] []); [|done].
  unfold ret, pushed. rewrite !set_heap_twice. simpl.
  rewrite !length_map, Nat.add_0_r. by rewrite <- list_fmap_compose.
Qed.

(** *** Writing the file *)

Lemma append_cons x (a b : string) : String x a +:+ b = String x (a +:+ b).
Proof. reflexivity. Qed.

Lemma append_assoc (a b c : string) : (a +:+ b) +:+ c = a +:+ (b +:+ c).
Proof. induction a as [|x a IH]; [done|]. by rewrite !append_cons, IH. Qed.

Lemma append_nil_r (a : string) : a +:+ "" = a.
Proof. induction a as [|x a IH]; [done|]. by rewrite append_cons, IH. Qed.

Lemma set_files_twice f1 f2 w : set_files f2 (set_files f1 w) = set_files f2 w.
Proof. reflexivity. Qed.

Lemma set_files_same w : set_files (files w) w = w.
Proof. by destruct w. Qed.

Lemma writes_ret h p : writes h p (ret tt) "".
Proof.
  intros w t _ Hf. unfold ret. rewrite append_nil_r.
  by rewrite insert_id, set_files_same.
Qed.

Lemma writes_bind h p m1 m2 s1 s2 :
  writes h p m1 s1 → writes h p m2 s2 → writes h p (m1 ;; m2) (s1 +:+ s2).
Proof.
  intros H1 H2 w t Hh Hf. unfold bind. rewrite (H1 _ _ Hh Hf).
  rewrite (H2 _ (t +:+ s1)); [|done|simpl; by rewrite lookup_insert_eq].
  simpl. by rewrite set_files_twice, insert_insert_eq, append_assoc.
Qed.

Lemma writes_for_each2 {A B} h p (xs : list A) (ys : list B) body txt :
  Forall2 (λ x y, writes h p (body x) (txt y)) xs ys →
  writes h p (for_each xs body) (concat_text (map txt ys)).
Proof.
  induction 1 as [|x y xs ys Hxy _ IH]; simpl.
  - apply writes_ret.
  - by apply writes_bind.
Qed.

Section Text.
Context `{PyText}.

Lemma writes_vertex h p r v :
  is_list h r (vertex_obj v) →
  writes h p (line <- vertex_line r ;; file_write p line) (vertex_text v).
Proof.
  intros (l & -> & Hl) w t Hh Hf. destruct v as [[x y] z]. simpl in Hl.
  rewrite <- Hh in Hl.
  unfold vertex_line, bind, getitem, py_str, ret, file_write.
  repeat (rewrite Hl; simpl). by rewrite Hf.
Qed.

Lemma face_parts idxs w :
  map_m (λ idx, n <- add_one idx ;; py_str n) (map PInt idxs) w
  = (Ok (map (λ i, dec (i + 1)) idxs), w).
Proof.
  induction idxs as [|i idxs IH]; simpl; [done|].
  unfold bind at 1. unfold bind at 1. simpl. unfold bind at 1. by rewrite IH.
Qed.

Lemma writes_face h p r idxs :
  is_list h r (map PInt idxs) →
  writes h p (line <- face_line r ;; file_write p line) (face_text idxs).
Proof.
  intros (l & -> & Hl) w t Hh Hf. rewrite <- Hh in Hl.
  unfold face_line. unfold bind at 1 2. unfold items_of. rewrite Hl.
  unfold bind at 1. rewrite face_parts. unfold ret, file_write. by rewrite Hf.
Qed.

Lemma save_obj_text v f p vs fs w :
  holds_vertices (heap w) v vs → holds_faces (heap w) f fs →
  writable w p = true →
  save_obj v f (PStr p) w
  = (Ok tt, set_files (<[p := FText (obj_text vs fs)]> (files w)) w).
Proof.
  intros (vrefs & (lv & -> & Hlv) & Hvs) (frefs & (lf & -> & Hlf) & Hfs) Hp.
  unfold save_obj. unfold bind at 1. unfold open_w. rewrite Hp.
  unfold bind at 1. unfold items_of at 1. simpl heap. rewrite Hlv.
  assert (writes (heap w) p
            (for_each vrefs (λ v, line <- vertex_line v ;; file_write p line))
            (concat_text (map vertex_text vs))) as Hwv.
  { apply writes_for_each2. eapply Forall2_impl; [exact Hvs|].
    intros r v Hr. by apply writes_vertex. }
  assert (writes (heap w) p
            (for_each frefs (λ face, line <- face_line face ;; file_write p line))
            (concat_text (map face_text fs))) as Hwf.
  { apply writes_for_each2. eapply Forall2_impl; [exact Hfs|].
    intros r idxs Hr. by apply writes_face. }
  unfold bind at 1.
  rewrite (Hwv _ ""); [|done|simpl; by rewrite lookup_insert_eq].
  unfold bind at 1. unfold items_of. simpl heap. rewrite Hlf.
  rewrite (Hwf _ ("" +:+ concat_text (map vertex_text vs)));
    [|done|simpl; by rewrite lookup_insert_eq].
  simpl. by rewrite !set_files_twice, !insert_insert_eq.
Qed.

End Text.

(** ** Reading back what [save_obj] writes *)

Lemma split_on_avoids c s : avoids c s = true → split_on c s = [s].
Proof.
  induction s as [|a s IH]; simpl; [done|].
  intros [Ha Hs]%andb_prop. rewrite negb_true_iff in Ha. rewrite Ha.
  by rewrite IH.
Qed.

Lemma split_on_app c s t :
  avoids c s = true → split_on c (s +:+ String c t) = s :: split_on c t.
Proof.
  induction s as [|a s IH]; intros Hs.
  - simpl. change ("" +:+ String c t) with (String c t). simpl.
    by rewrite Ascii.eqb_refl.
  - simpl in Hs. apply andb_prop in Hs as [Ha Hs]. rewrite negb_true_iff in Ha.
    rewrite append_cons. simpl. rewrite Ha. by rewrite IH.
Qed.

Lemma avoids_app c a b : avoids c (a +:+ b) = avoids c a && avoids c b.
Proof.
  induction a as [|x a IH]; [done|].
  rewrite append_cons. simpl. by rewrite IH, andb_assoc.
Qed.

Lemma nonempty_app_l a b : nonempty a = true → nonempty (a +:+ b) = true.
Proof. by destruct a. Qed.

Lemma word_parts s :
  word s = true → nonempty s = true ∧ avoids " " s = true ∧ avoids "010" s = true.
Proof. unfold word. by intros [[? ?]%andb_prop ?]%andb_prop. Qed.

(** [words] of a field followed by a blank and more text *)
Lemma words_cons w s : word w = true → words (w +:+ " " +:+ s) = w :: words s.
Proof.
  intros (Hn & Hb & _)%word_parts. unfold words.
  change (" " +:+ s) with (String " " s).
  rewrite split_on_app by done. simpl. by rewrite Hn.
Qed.

Lemma words_single w : word w = true → words w = [w].
Proof.
  intros (Hn & Hb & _)%word_parts. unfold words.
  rewrite split_on_avoids by done. simpl. by rewrite Hn.
Qed.

Lemma words_join ws : Forall (λ w, word w = true) ws → words (join " " ws) = ws.
Proof.
  induction 1 as [|w ws Hw Hws IH]; [done|].
  destruct ws as [|w' ws].
  - simpl. by apply words_single.
  - change (join " " (w :: w' :: ws)) with (w +:+ " " +:+ join " " (w' :: ws)).
    by rewrite words_cons, IH.
Qed.

Lemma avoids_join c ws :
  avoids c " " = true → Forall (λ w, avoids c w = true) ws → avoids c (join " " ws) = true.
Proof.
  intros Hc. induction 1 as [|w ws Hw Hws IH]; [done|].
  destruct ws as [|w' ws]; [done|].
  change (join " " (w :: w' :: ws)) with (w +:+ " " +:+ join " " (w' :: ws)).
  by rewrite !avoids_app, Hw, Hc, IH.
Qed.

(** *** Decimal text *)

Lemma uint_chars d : all_chars dec_char (NilEmpty.string_of_uint d) = true.
Proof. induction d; simpl; by rewrite ?IHd. Qed.

Lemma dec_chars z : all_chars dec_char (dec z) = true.
Proof.
  unfold dec. destruct z as [|p|p]; simpl; [done| |].
  - unfold NilZero.string_of_uint. destruct (Pos.to_uint p); try apply uint_chars. done.
  - unfold NilZero.string_of_uint. destruct (Pos.to_uint p); try apply uint_chars. done.
Qed.

Lemma all_chars_avoids P c s :
  P c = false → all_chars P s = true → avoids c s = true.
Proof.
  intros Hc. induction s as [|a s IH]; simpl; [done|].
  intros [Ha Hs]%andb_prop. rewrite IH, andb_true_r by done.
  apply negb_true_iff, Ascii.eqb_neq. intros ->. congruence.
Qed.

Lemma dec_nonempty z : nonempty (dec z) = true.
Proof.
  unfold dec. destruct z as [|p|p]; simpl; [done| |done].
  unfold NilZero.string_of_uint.
  pose proof (DecimalPos.Unsigned.to_uint_nonnil p).
  by destruct (Pos.to_uint p).
Qed.

Lemma dec_avoids c z : dec_char c = false → avoids c (dec z) = true.
Proof. intros Hc. by apply (all_chars_avoids dec_char), dec_chars. Qed.

Lemma dec_word z : word (dec z) = true.
Proof.
  unfold word. by rewrite dec_nonempty, !dec_avoids.
Qed.

Lemma read_index_dec i : read_index (dec (i + 1)) = Some i.
Proof.
  unfold read_index.
  rewrite split_on_avoids by by apply dec_avoids.
  unfold dec. rewrite NilZero.isi.
  - rewrite DecimalZ.of_to. f_equal. lia.
  - destruct (i + 1)%Z as [|p|p]; simpl; try done.
    intros [= Hp]. by apply (DecimalPos.Unsigned.to_uint_nonnil p).
  - destruct (i + 1)%Z as [|p|p]; simpl; try done.
    intros [= Hp]. by apply (DecimalPos.Unsigned.to_uint_nonnil p).
Qed.

Lemma read_all_indices idxs :
  read_all read_index (map (λ i, dec (i + 1)) idxs) = Some idxs.
Proof.
  induction idxs as [|i idxs IH]; simpl; [done|]. by rewrite read_index_dec, IH.
Qed.

(** *** Lines *)

Lemma lines_cons body rest :
  avoids "010" body = true → lines ((body +:+ nl) +:+ rest) = body :: lines rest.
Proof.
  intros Hb. unfold lines. rewrite append_assoc.
  change (nl +:+ rest) with (String "010" rest). by apply split_on_app.
Qed.

Section RoundTrip.
Context `{PyText} (read_float : string → option float).

Lemma vertex_text_fields v : vertex_text v = join " " (vertex_fields v) +:+ nl.
Proof.
  destruct v as [[x y] z]. unfold vertex_text, vertex_fields, join.
  by rewrite !append_assoc.
Qed.

Lemma face_text_fields idxs :
  face_text idxs = ("f" +:+ " " +:+ join " " (map (λ i, dec (i + 1)) idxs)) +:+ nl.
Proof. unfold face_text. by rewrite !append_assoc. Qed.

Lemma vertex_fields_words v :
  vertex_reads read_float v → Forall (λ w, word w = true) (vertex_fields v).
Proof.
  destruct v as [[x y] z]. intros ((Hx & _) & (Hy & _) & (Hz & _)).
  unfold vertex_fields. by repeat constructor.
Qed.

Lemma words_avoid_nl ws :
  Forall (λ w, word w = true) ws → avoids "010" (join " " ws) = true.
Proof.
  intros Hws. apply avoids_join; [done|].
  eapply Forall_impl; [exact Hws|]. by intros w (_ & _ & ?)%word_parts.
Qed.

Lemma read_vertex_line v m :
  vertex_reads read_float v →
  read_line read_float (join " " (vertex_fields v)) m
  = Some (Mesh (v :: vertices m) (uvs m) (faces m)).
Proof.
  intros Hv. unfold read_line. rewrite words_join by by apply vertex_fields_words.
  destruct v as [[x y] z]. destruct Hv as ((_ & Hx) & (_ & Hy) & (_ & Hz)).
  simpl. by rewrite Hx, Hy, Hz.
Qed.

Lemma face_words idxs :
  words ("f" +:+ " " +:+ join " " (map (λ i, dec (i + 1)) idxs)) = face_fields idxs.
Proof.
  rewrite words_cons by done. unfold face_fields. f_equal.
  apply words_join. apply Forall_forall. intros w (i & -> & _)%list_elem_of_fmap.
  apply dec_word.
Qed.

Lemma face_avoids_nl idxs :
  avoids "010" ("f" +:+ " " +:+ join " " (map (λ i, dec (i + 1)) idxs)) = true.
Proof.
  rewrite !avoids_app. simpl. apply avoids_join; [done|].
  apply Forall_forall. intros w (i & -> & _)%list_elem_of_fmap. by apply dec_avoids.
Qed.

Lemma read_face_line idxs m :
  read_line read_float ("f" +:+ " " +:+ join " " (map (λ i, dec (i + 1)) idxs)) m
  = Some (Mesh (vertices m) (uvs m) (idxs :: faces m)).
Proof.
  unfold read_line. rewrite face_words. unfold face_fields. simpl.
  by rewrite read_all_indices.
Qed.

Lemma read_faces fs :
  read_lines read_float (lines (concat_text (map face_text fs))) = Some (Mesh [] [] fs).
Proof.
  induction fs as [|idxs fs IH]; [done|].
  simpl. rewrite face_text_fields, lines_cons by apply face_avoids_nl.
  simpl. rewrite IH. by rewrite read_face_line.
Qed.

Lemma parse_obj_text vs fs :
  Forall (vertex_reads read_float) vs →
  parse_obj read_float (obj_text vs fs) = Some (Mesh vs [] fs).
Proof.
  unfold parse_obj, obj_text. induction 1 as [|v vs Hv Hvs IH].
  - apply read_faces.
  - simpl. rewrite append_assoc, vertex_text_fields.
    rewrite lines_cons by by apply words_avoid_nl, vertex_fields_words.
    simpl. rewrite IH. by rewrite read_vertex_line.
Qed.

End RoundTrip.

(** ** The height map, the image loader and the styles *)

Lemma in_unit_all : forallb (λ n, in_unit (sample_of (Z.of_nat n))) (seq 0 256) = true.
Proof. vm_compute. reflexivity. Qed.

Lemma in_unit_u8 g : is_u8 g → in_unit (sample_of g) = true.
Proof.
  intros [Hlo Hhi]. pose proof in_unit_all as Hall.
  rewrite forallb_forall in Hall.
  rewrite <- (Z2Nat.id g) by done. apply Hall.
  apply in_seq. lia.
Qed.

Lemma at2_map2 {A B} (f : A → B) (a : array2 A) y x :
  at2 (map2 f a) y x = f <$> at2 a y x.
Proof.
  unfold at2, map2. simpl. rewrite list_lookup_fmap.
  destruct (rows a !! y) as [r|]; simpl; [|done]. by rewrite list_lookup_fmap.
Qed.

Lemma wf_map2 {A B} (f : A → B) (a : array2 A) : wf_array2 a → wf_array2 (map2 f a).
Proof.
  intros [Hr Hc]. split; simpl.
  - by rewrite length_map.
  - apply Forall_fmap. eapply Forall_impl; [exact Hc|]. intros r Hlen. simpl.
    by rewrite length_map.
Qed.

Lemma at2_Forall {A} (P : A → Prop) (a : array2 A) y x p :
  Forall (Forall P) (rows a) → at2 a y x = Some p → P p.
Proof.
  unfold at2. intros Hall Hp. destruct (rows a !! y) as [r|] eqn:Hr; [|done].
  eapply Forall_lookup_1; [|exact Hp]. eapply Forall_lookup_1; [exact Hall|exact Hr].
Qed.

Section Gray.
Context `{Cv2}.

Lemma gray_of_pixel_u8 p n :
  n = 3 ∨ n = 4 → length p = n → Forall is_u8 p → is_u8 (gray_of_pixel p).
Proof.
  intros Hn Hlen Hp.
  destruct p as [|b [|g [|r p]]]; simpl in Hlen; [lia..|].
  simpl. inversion Hp as [|? ? Hb Hp1]; subst. inversion Hp1 as [|? ? Hg Hp2]; subst.
  inversion Hp2 as [|? ? Hr _]; subst. by apply bgr2gray_u8.
Qed.

Lemma generate_height_map_colour im w :
  wf_image im → nchan im = 3 ∨ nchan im = 4 → cv2_present w = true →
  generate_height_map im w = (Ok (height_of im), w).
Proof.
  intros (_ & Hh & Hw & _) Hn Hcv. unfold generate_height_map. rewrite Hcv. simpl.
  unfold bind, cvtColor_BGR2GRAY.
  destruct (shape (pixels im)) as [h wd]. simpl in Hh, Hw.
  destruct h; [lia|]. destruct wd; [lia|]. simpl.
  by destruct Hn as [-> | ->].
Qed.

Lemma generate_height_map_other im w :
  nchan im ≠ 3 → nchan im ≠ 4 → cv2_present w = true →
  generate_height_map im w = (Raise CvError, w).
Proof.
  intros H3 H4 Hcv. unfold generate_height_map. rewrite Hcv. simpl.
  unfold bind, cvtColor_BGR2GRAY.
  destruct (shape (pixels im)) as [h wd].
  destruct ((h =? 0) || (wd =? 0)); [done|].
  apply Nat.eqb_neq in H3, H4. by rewrite H3, H4.
Qed.

Lemma height_of_sample im y x p :
  wf_image im → nchan im = 3 ∨ nchan im = 4 →
  at2 (pixels im) y x = Some p →
  at2 (height_of im) y x = Some (sample_of (gray_of_pixel p))
  ∧ in_unit (sample_of (gray_of_pixel p)) = true.
Proof.
  intros (_ & _ & _ & Hpx) Hn Hp. unfold height_of.
  rewrite !at2_map2, Hp. split; [done|].
  apply in_unit_u8.
  destruct (at2_Forall _ _ _ _ _ Hpx Hp) as [Hlen Hu8].
  by eapply gray_of_pixel_u8.
Qed.

End Gray.

Lemma load_image_decodes w path im :
  decodes w path im → cv2_present w = true → load_image path w = (Ok im, w).
Proof.
  intros (Hf & Hpdf & Hdwg) Hcv. unfold load_image.
  apply String.eqb_neq in Hpdf, Hdwg. rewrite Hpdf, Hdwg, Hcv. simpl.
  unfold bind, imread. by rewrite Hf.
Qed.

Lemma load_image_world path w : snd (load_image path w) = w.
Proof.
  unfold load_image.
  destruct (String.eqb _ ".pdf"); [done|]. destruct (String.eqb _ ".dwg"); [done|].
  destruct (cv2_present w); [|done]. simpl. unfold bind, imread.
  by destruct (files w !! path) as [[]|].
Qed.

(** *** [apply_style] on a vertex list in the heap *)

Lemma eq_str_refl s : eq_str (PStr s) s = true.
Proof. simpl. apply String.eqb_refl. Qed.

Lemma apply_style_factor v vs style c w :
  holds_vertices (heap w) v vs → style_factor style = Some c →
  apply_style v (PStr style) w =
    (Ok (PRef (length (heap w))),
     set_heap (heap w ++ map PRef (seq (S (length (heap w))) (length vs))
                      :: map vertex_obj (map (scale_z c) vs)) w).
Proof.
  intros Hv Hc. unfold apply_style, style_factor in *. simpl.
  destruct (String.eqb style "classic").
  - injection Hc as <-. by apply list_comp_scaled.
  - destruct (String.eqb style "nostalgic"); [|done].
    injection Hc as <-. by apply list_comp_scaled.
Qed.

Lemma apply_style_other v style w :
  eq_str style "classic" = false → eq_str style "nostalgic" = false →
  apply_style v style w = (Ok v, w).
Proof. intros H1 H2. unfold apply_style. by rewrite H1, H2. Qed.

Lemma apply_style_styled v vs style w :
  holds_vertices (heap w) v vs →
  ∃ v' h', apply_style v (PStr style) w = (Ok v', set_heap (heap w ++ h') w)
           ∧ holds_vertices (heap w ++ h') v' (styled style vs).
Proof.
  intros Hv. unfold styled. destruct (style_factor style) as [c|] eqn:Hc.
  - eexists _, _. split; [by apply apply_style_factor|].
    rewrite <- (length_map (scale_z c) vs).
    pose proof (holds_fresh (heap w) [] (map (scale_z c) vs)) as Hf.
    simpl in Hf. by rewrite Nat.add_0_r in Hf.
  - exists v, []. rewrite app_nil_r, set_heap_same. split; [|done].
    unfold style_factor in Hc. apply apply_style_other; simpl.
    + by destruct (String.eqb style "classic").
    + destruct (String.eqb style "classic"); [done|].
      by destruct (String.eqb style "nostalgic").
Qed.

Lemma styled_length style vs : length (styled style vs) = length vs.
Proof. unfold styled. destruct (style_factor style); [|done]. by rewrite length_map. Qed.

Lemma create_3d_mesh_faces hm w v f w' :
  create_3d_mesh hm w = (Ok (v, f), w') → ∃ l, f = PRef l.
Proof.
  unfold create_3d_mesh, bind, new_list. destruct (shape hm) as [h wd].
  match goal with |- context [for_each ?xs ?b ?w0] => destruct (for_each xs b w0) as [[[]|e] w2] end;
    intros [= <- <- <-]; eauto.
Qed.

(** ** The command line run *)

Lemma decodes_set_heap h w p im : decodes w p im → decodes (set_heap h w) p im.
Proof. done. Qed.

Lemma holds_faces_nil h l : h !! l = Some [] → holds_faces h (PRef l) [].
Proof. intros Hl. exists []. split; [by exists l|constructor]. Qed.

Lemma holds_faces_extend h h' v fs : holds_faces h v fs → holds_faces (h ++ h') v fs.
Proof.
  intros (refs & Hv & Hall). exists refs. split; [by apply is_list_extend|].
  eapply Forall2_impl; [exact Hall|]. intros r p Hr. by apply is_list_extend.
Qed.

(** The heap [create_3d_mesh] leaves holds the vertices and an empty face list *)
Lemma created_holds h hm :
  let h' := h ++ map PRef (seq (length h + 2) (length (grid_vertices hm)))
              :: [] :: map vertex_obj (grid_vertices hm) in
  holds_vertices h' (PRef (length h)) (grid_vertices hm)
  ∧ holds_faces h' (PRef (S (length h))) [].
Proof.
  simpl. split.
  - pose proof (holds_fresh h [[]] (grid_vertices hm)) as Hf. simpl in Hf.
    by replace (S (length h + 1)) with (length h + 2) in Hf by lia.
  - apply holds_faces_nil. rewrite lookup_app_r by lia.
    by replace (S (length h) - length h) with 1 by lia.
Qed.

Section Pipeline.
Context `{Cv2} `{PyText}.

Lemma main_writes a w im :
  let st := default "modern" (arg_style a) in
  let out := default "output.obj" (arg_output a) in
  st ∈ choices →
  decodes w (arg_input_file a) im → wf_image im → nchan im = 3 ∨ nchan im = 4 →
  cv2_present w = true → texture_ok w (arg_texture a) → writable w out = true →
  ∃ w', main a w = (Ok tt, w')
        ∧ files w' = <[out := FText (obj_text (styled st (grid_vertices (height_of im))) [])]>
                       (files w)
        ∧ stdout w' = stdout w ++ ["Model saved to " +:+ out].
Proof.
  intros st out Hst Hin Hwf Hn Hcv Htex Hout.
  unfold main. unfold bind at 1. unfold parse_args. fold st out.
  rewrite bool_decide_eq_true_2 by done. unfold ret at 1. cbn [input_file style texture output].
  unfold bind at 1. rewrite (load_image_decodes _ _ _ Hin Hcv).
  unfold bind at 1. rewrite (generate_height_map_colour _ _ Hwf Hn Hcv).
  assert (wf_array2 (height_of im)) as Hhm.
  { unfold height_of. apply wf_map2, wf_map2. apply Hwf. }
  unfold bind at 1. rewrite (create_3d_mesh_heap _ _ Hhm).
  destruct (created_holds (heap w) (height_of im)) as [Hv Hf].
  set (h1 := heap w ++ _) in *.
  destruct (apply_style_styled _ _ st (set_heap h1 w) Hv) as (v' & h' & Hsty & Hv').
  simpl heap in Hsty, Hv'.
  unfold bind at 1. rewrite Hsty. rewrite set_heap_twice.
  set (w2 := set_heap (h1 ++ h') w).
  assert ((λ w0, match arg_texture a with
           | Some t => if String.eqb t "" then ret v'
                       else (texture_img <- load_image t ;; apply_texture v' texture_img)
           | None => ret v'
           end w0) w2 = (Ok v', w2)) as Htx.
  { destruct (arg_texture a) as [t|]; [|done].
    destruct (String.eqb t "") eqn:Ht; [done|].
    destruct Htex as [-> | [tim Htim]]; [done|].
    unfold bind. by rewrite (load_image_decodes w2 t tim). }
  unfold bind at 1. cbv beta in Htx. rewrite Htx.
  unfold bind at 1.
  rewrite (save_obj_text v' _ out (styled st (grid_vertices (height_of im))) []);
    [|done|by apply holds_faces_extend|done].
  unfold print. eexists. split; [reflexivity|]. done.
Qed.

End Pipeline.

(** ** The mesh of [create_3d_mesh] *)

Lemma mesh_world_vertices : holds_vertices (heap mesh_world) (PRef 0) mesh_vertices.
Proof.
  exists [PRef 1; PRef 2]. split; [by exists 0|].
  repeat constructor; eexists; split; reflexivity.
Qed.

Lemma mesh_world_faces : holds_faces (heap mesh_world) (PRef 3) mesh_faces.
Proof.
  exists [PRef 4]. split; [by exists 3|].
  repeat constructor; eexists; split; reflexivity.
Qed.

Lemma wf_height_2x2 : wf_array2 height_2x2.
Proof. split; [done|]. by repeat constructor. Qed.

Lemma wf_height_1x2 : wf_array2 height_1x2.
Proof. split; [done|]. by repeat constructor. Qed.

Lemma wf_image_2x2 : wf_image image_2x2.
Proof.
  split; [split; [done|by repeat constructor]|].
  split; [simpl; lia|]. split; [simpl; lia|].
  repeat constructor; unfold is_u8; lia.
Qed.

Lemma wf_image_1x2 : wf_image image_1x2.
Proof.
  split; [split; [done|by repeat constructor]|].
  split; [simpl; lia|]. split; [simpl; lia|].
  repeat constructor; unfold is_u8; lia.
Qed.

Lemma create_3d_mesh_grid hm w :
  wf_array2 hm →
  ∃ v f w',
    create_3d_mesh hm w = (Ok (v, f), w')
    ∧ holds_vertices (heap w') v (grid_vertices hm)
    ∧ length (grid_vertices hm) = snd (shape hm) * fst (shape hm)
    ∧ holds_faces (heap w') f [].
Proof.
  intros Hwf. eexists _, _, _. split; [by apply create_3d_mesh_heap|].
  destruct (created_holds (heap w) hm) as [Hv Hf].
  split; [exact Hv|]. split; [|exact Hf].
  rewrite grid_vertices_length by done. lia.
Qed.

(** C1, as the code has it: for every height field of width W >= 2 and
    height H >= 2, [create_3d_mesh] returns exactly W*H vertices and an
    empty face list (0 faces, not 2*(W-1)*(H-1)); every index in a
    returned face is below W*H, there being none. *)
Theorem create_3d_mesh_counts hm w :
  wf_array2 hm → 2 ≤ fst (shape hm) → 2 ≤ snd (shape hm) →
  ∃ v f w' vs fs,
    create_3d_mesh hm w = (Ok (v, f), w')
    ∧ holds_vertices (heap w') v vs
    ∧ length vs = snd (shape hm) * fst (shape hm)
    ∧ holds_faces (heap w') f fs
    ∧ length fs = 0
    ∧ Forall (Forall (λ idx, (0 ≤ idx < Z.of_nat (snd (shape hm) * fst (shape hm)))%Z)) fs.
Proof.
  intros Hwf _ _.
  destruct (create_3d_mesh_grid hm w Hwf) as (v & f & w' & Hrun & Hv & Hlen & Hf).
  exists v, f, w', (grid_vertices hm), []. by repeat split.
Qed.

Lemma create_3d_mesh_counts_witness :
  ∃ v f w' vs fs,
    create_3d_mesh height_2x2 sample_world = (Ok (v, f), w')
    ∧ holds_vertices (heap w') v vs
    ∧ length vs = 2 * 2
    ∧ holds_faces (heap w') f fs
    ∧ length fs = 0
    ∧ Forall (Forall (λ idx, (0 ≤ idx < Z.of_nat (2 * 2))%Z)) fs.
Proof.
  apply (create_3d_mesh_counts height_2x2 sample_world wf_height_2x2); simpl; lia.
Defined.

(** C1 as stated fails: on a 2 x 2 height field the face list does not
    have 2*(2-1)*(2-1) = 2 entries. *)
Lemma create_3d_mesh_2x2_no_faces :
  ¬ ∃ v f w' fs,
      create_3d_mesh height_2x2 sample_world = (Ok (v, f), w')
      ∧ holds_faces (heap w') f fs
      ∧ length fs = 2 * (2 - 1) * (2 - 1).
Proof.
  intros (v & f & w' & fs & Hrun & (refs & (l & -> & Hl) & Hall) & Hlen).
  vm_compute in Hrun. inversion Hrun; subst. clear Hrun.
  vm_compute in Hl. injection Hl as <-.
  apply Forall2_length in Hall. simpl in Hall, Hlen. lia.
Qed.

(** C2, as the code has it: for every height field with W < 2 or H < 2,
    [create_3d_mesh] raises nothing (the code has no InvalidHeightField
    error): it returns the W*H vertices and an empty face list, and the
    pipeline run on an image with that height field writes the output
    file, which holds the vertex lines. *)
Theorem create_3d_mesh_small_grid hm w :
  wf_array2 hm → fst (shape hm) < 2 ∨ snd (shape hm) < 2 →
  (∃ v f w',
     create_3d_mesh hm w = (Ok (v, f), w')
     ∧ holds_vertices (heap w') v (grid_vertices hm)
     ∧ length (grid_vertices hm) = snd (shape hm) * fst (shape hm)
     ∧ holds_faces (heap w') f [])
  ∧ (∀ (cv : Cv2) (txt : PyText) a im,
       height_of im = hm →
       default "modern" (arg_style a) ∈ choices →
       decodes w (arg_input_file a) im → wf_image im → nchan im = 3 ∨ nchan im = 4 →
       cv2_present w = true → texture_ok w (arg_texture a) →
       writable w (default "output.obj" (arg_output a)) = true →
       ∃ w', main a w = (Ok tt, w')
             ∧ files w' !! default "output.obj" (arg_output a)
               = Some (FText (obj_text (styled (default "modern" (arg_style a))
                                          (grid_vertices hm)) []))).
Proof.
  intros Hwf _. split; [by apply create_3d_mesh_grid|].
  intros cv txt a im <- Hst Hin Him Hn Hcv Htex Hout.
  destruct (main_writes a w im Hst Hin Him Hn Hcv Htex Hout) as (w' & Hrun & Hfiles & _).
  exists w'. split; [done|]. by rewrite Hfiles, lookup_insert_eq.
Qed.

Lemma create_3d_mesh_small_grid_witness :
  (∃ v f w',
     create_3d_mesh height_1x2 sample_world = (Ok (v, f), w')
     ∧ holds_vertices (heap w') v (grid_vertices height_1x2)
     ∧ length (grid_vertices height_1x2) = 2 * 1
     ∧ holds_faces (heap w') f [])
  ∧ (∃ w', main (H := cv_bt601) (H0 := text_integral)
             (Argv "strip.png" None None None) sample_world = (Ok tt, w')
           ∧ files w' !! "output.obj"
             = Some (FText (obj_text (H := text_integral)
                              (styled "modern" (grid_vertices height_1x2)) []))).
Proof.
  destruct (create_3d_mesh_small_grid height_1x2 sample_world wf_height_1x2
              (or_introl (Nat.lt_succ_diag_r 1))) as [Hmesh Hmain].
  split; [exact Hmesh|].
  apply (Hmain cv_bt601 text_integral (Argv "strip.png" None None None) image_1x2).
  - vm_compute. reflexivity.
  - simpl. unfold choices. apply list_elem_of_here.
  - split; [vm_compute; reflexivity|]. split; vm_compute; discriminate.
  - exact wf_image_1x2.
  - left. reflexivity.
  - reflexivity.
  - exact I.
  - reflexivity.
Defined.

(** C2 as stated fails: on a single-row height field [create_3d_mesh]
    returns normally, and the pipeline run on a single-row image writes
    the output file. *)
Lemma create_3d_mesh_single_row_succeeds :
  fst (create_3d_mesh height_1x2 sample_world) = Ok (PRef 0, PRef 1)
  ∧ fst (main (H := cv_bt601) (H0 := text_integral)
           (Argv "strip.png" None None None) sample_world) = Ok tt
  ∧ files (snd (main (H := cv_bt601) (H0 := text_integral)
                  (Argv "strip.png" None None None) sample_world)) !! "output.obj"
    = Some (FText ("v 0.0 0.0 0.0" +:+ nl +:+ "v 1.0 0.0 1.0" +:+ nl)).
Proof. vm_compute. done. Qed.

(** ** Styles and vertex order *)

Lemma scaled_lookup c (vs : list (float * float * float)) i x y z :
  vs !! i = Some (x, y, z) → map (scale_z c) vs !! i = Some (x, y, (z * c)%float).
Proof. intros Hi. by rewrite list_lookup_fmap, Hi. Qed.

Lemma apply_style_scaled v vs style c w :
  holds_vertices (heap w) v vs → style_factor style = Some c →
  ∃ v' w' out,
    apply_style v (PStr style) w = (Ok v', w')
    ∧ holds_vertices (heap w') v' out
    ∧ holds_vertices (heap w') v vs
    ∧ length out = length vs
    ∧ ∀ i x y z, vs !! i = Some (x, y, z) → out !! i = Some (x, y, (z * c)%float).
Proof.
  intros Hv Hc. eexists _, _, (map (scale_z c) vs).
  split; [by apply apply_style_factor|]. simpl heap.
  split; [|split; [by apply holds_vertices_extend|]].
  - rewrite <- (length_map (scale_z c) vs).
    pose proof (holds_fresh (heap w) [] (map (scale_z c) vs)) as Hf.
    simpl in Hf. by rewrite Nat.add_0_r in Hf.
  - split; [by rewrite length_map|]. intros i x y z. apply scaled_lookup.
Qed.

(** C3: for every vertex list, [apply_style] with "classic" gives a
    vertex list of the same length whose entry at each index has the same
    x and y and z multiplied by 0.5; with "nostalgic" the same with 1.5;
    with "modern" the result is the input vertex list itself. *)
Theorem apply_style_scales_z v vs w :
  holds_vertices (heap w) v vs →
  (∃ v' w' out,
     apply_style v (PStr "classic") w = (Ok v', w')
     ∧ holds_vertices (heap w') v' out
     ∧ length out = length vs
     ∧ ∀ i x y z, vs !! i = Some (x, y, z) → out !! i = Some (x, y, (z * 0.5)%float))
  ∧ (∃ v' w' out,
       apply_style v (PStr "nostalgic") w = (Ok v', w')
       ∧ holds_vertices (heap w') v' out
       ∧ length out = length vs
       ∧ ∀ i x y z, vs !! i = Some (x, y, z) → out !! i = Some (x, y, (z * 1.5)%float))
  ∧ apply_style v (PStr "modern") w = (Ok v, w).
Proof.
  intros Hv. split; [|split].
  - destruct (apply_style_scaled v vs "classic" 0.5 w Hv eq_refl)
      as (v' & w' & out & Hrun & Hout & _ & Hlen & Hz).
    by exists v', w', out.
  - destruct (apply_style_scaled v vs "nostalgic" 1.5 w Hv eq_refl)
      as (v' & w' & out & Hrun & Hout & _ & Hlen & Hz).
    by exists v', w', out.
  - reflexivity.
Qed.

Lemma apply_style_scales_z_witness :
  (∃ v' w' out,
     apply_style (PRef 0) (PStr "classic") mesh_world = (Ok v', w')
     ∧ holds_vertices (heap w') v' out
     ∧ length out = length mesh_vertices
     ∧ ∀ i x y z, mesh_vertices !! i = Some (x, y, z) →
                  out !! i = Some (x, y, (z * 0.5)%float))
  ∧ (∃ v' w' out,
       apply_style (PRef 0) (PStr "nostalgic") mesh_world = (Ok v', w')
       ∧ holds_vertices (heap w') v' out
       ∧ length out = length mesh_vertices
       ∧ ∀ i x y z, mesh_vertices !! i = Some (x, y, z) →
                    out !! i = Some (x, y, (z * 1.5)%float))
  ∧ apply_style (PRef 0) (PStr "modern") mesh_world = (Ok (PRef 0), mesh_world).
Proof. exact (apply_style_scales_z (PRef 0) mesh_vertices mesh_world mesh_world_vertices). Defined.

(** C10: for every style argument other than "classic" and "nostalgic",
    of any type, and every vertex argument, [apply_style] raises nothing
    and returns the argument itself (the same object), the heap and the
    rest of the world unchanged. *)
Theorem apply_style_else_returns_input vertices style w :
  style ≠ PStr "classic" → style ≠ PStr "nostalgic" →
  apply_style vertices style w = (Ok vertices, w).
Proof.
  intros Hc Hn. apply apply_style_other.
  - destruct style as [| | |s|]; simpl; try done.
    apply String.eqb_neq. congruence.
  - destruct style as [| | |s|]; simpl; try done.
    apply String.eqb_neq. congruence.
Qed.

Lemma apply_style_else_returns_input_witness :
  apply_style (PRef 0) (PStr "baroque") mesh_world = (Ok (PRef 0), mesh_world)
  ∧ apply_style (PRef 0) PNone mesh_world = (Ok (PRef 0), mesh_world)
  ∧ apply_style (PInt 7) (PStr "Classic") mesh_world = (Ok (PInt 7), mesh_world).
Proof.
  split; [|split].
  - apply (apply_style_else_returns_input (PRef 0) (PStr "baroque")); discriminate.
  - apply (apply_style_else_returns_input (PRef 0) PNone); discriminate.
  - apply (apply_style_else_returns_input (PInt 7) (PStr "Classic")); discriminate.
Defined.

(** C7: the vertex of grid cell (row, col) is at index row*W + col of the
    vertex list [create_3d_mesh] returns, with coordinates
    (float(col), float(row), float(sample)); after [apply_style] and
    [apply_texture] the entry at that index still has those x and y, and
    z multiplied by the factor of the style (unchanged when the style has
    none); the lists have the same length and the face list is the one
    created. *)
Theorem vertex_index_identity hm w style t row col z :
  wf_array2 hm → at2 hm row col = Some z →
  row < fst (shape hm) → col < snd (shape hm) →
  ∃ v f w1 vs,
    create_3d_mesh hm w = (Ok (v, f), w1)
    ∧ holds_vertices (heap w1) v vs
    ∧ vs !! (row * snd (shape hm) + col)
      = Some (float_of_Z (Z.of_nat col), float_of_Z (Z.of_nat row), float_of_f32 z)
    ∧ ∃ v2 w2 out,
        (s <- apply_style v (PStr style) ;; apply_texture s t) w1 = (Ok v2, w2)
        ∧ holds_vertices (heap w2) v2 out
        ∧ length out = length vs
        ∧ out !! (row * snd (shape hm) + col)
          = Some (float_of_Z (Z.of_nat col), float_of_Z (Z.of_nat row),
                  match style_factor style with
                  | Some c => (float_of_f32 z * c)%float
                  | None => float_of_f32 z
                  end)
        ∧ holds_faces (heap w2) f [].
Proof.
  intros Hwf Hz Hrow Hcol.
  destruct (create_3d_mesh_grid hm w Hwf) as (v & f & w1 & Hrun & Hv & _ & Hf).
  exists v, f, w1, (grid_vertices hm). split; [done|]. split; [done|].
  pose proof (grid_vertices_lookup hm row col z Hwf Hz Hrow Hcol) as Hcell.
  split; [exact Hcell|].
  destruct (apply_style_styled v (grid_vertices hm) style w1 Hv) as (v2 & h' & Hsty & Hv2).
  exists v2, (set_heap (heap w1 ++ h') w1), (styled style (grid_vertices hm)).
  split; [unfold bind; by rewrite Hsty|].
  split; [exact Hv2|]. split; [apply styled_length|].
  split; [|by apply holds_faces_extend].
  unfold styled. destruct (style_factor style) as [c|]; [|exact Hcell].
  by apply scaled_lookup.
Qed.

Lemma vertex_index_identity_witness :
  ∃ v f w1 vs,
    create_3d_mesh height_2x2 sample_world = (Ok (v, f), w1)
    ∧ holds_vertices (heap w1) v vs
    ∧ vs !! (0 * 2 + 1) = Some (1%float, 0%float, 1%float)
    ∧ ∃ v2 w2 out,
        (s <- apply_style v (PStr "classic") ;; apply_texture s image_2x2) w1 = (Ok v2, w2)
        ∧ holds_vertices (heap w2) v2 out
        ∧ length out = length vs
        ∧ out !! (0 * 2 + 1) = Some (1%float, 0%float, 0.5%float)
        ∧ holds_faces (heap w2) f [].
Proof.
  exact (vertex_index_identity height_2x2 sample_world "classic" image_2x2 0 1 f32_one
           wf_height_2x2 eq_refl (Nat.lt_0_succ 1) (Nat.lt_succ_diag_r 1)).
Defined.

(** ** Height samples and the texture of the command line *)

Lemma wf_image_gray : wf_image image_gray.
Proof.
  split; [split; [done|by repeat constructor]|].
  split; [simpl; lia|]. split; [simpl; lia|].
  repeat constructor; unfold is_u8; lia.
Qed.

(** C6, as the code has it: for every decoded colour image (three or
    four 8-bit channels, which is what [load_image] yields),
    [generate_height_map] turns each pixel into one luminance sample
    divided by 255 in single precision, every sample lies in [0,1], and
    the grid has the dimensions of the image; an image with another
    number of channels, a single-channel one included, is not passed
    through: the grayscale conversion rejects it. *)
Theorem generate_height_map_unit (cv : Cv2) im w :
  wf_image im → cv2_present w = true →
  (nchan im = 3 ∨ nchan im = 4 →
   ∃ hm, generate_height_map im w = (Ok hm, w)
         ∧ shape hm = shape (pixels im)
         ∧ wf_array2 hm
         ∧ ∀ y x p, at2 (pixels im) y x = Some p →
                    at2 hm y x = Some (f32_div (f32_of_Z (gray_of_pixel p)) (f32_of_Z 255))
                    ∧ in_unit (f32_div (f32_of_Z (gray_of_pixel p)) (f32_of_Z 255)) = true)
  ∧ (nchan im ≠ 3 → nchan im ≠ 4 → generate_height_map im w = (Raise CvError, w)).
Proof.
  intros Hwf Hcv. split.
  - intros Hn. exists (height_of im).
    split; [by apply generate_height_map_colour|]. split; [done|].
    split; [unfold height_of; apply wf_map2, wf_map2, Hwf|].
    intros y x p Hp. by apply height_of_sample.
  - intros H3 H4. by apply generate_height_map_other.
Qed.

Lemma generate_height_map_unit_witness :
  (∃ hm, generate_height_map (H := cv_bt601) image_2x2 sample_world = (Ok hm, sample_world)
         ∧ shape hm = (2, 2)
         ∧ wf_array2 hm
         ∧ ∀ y x p, at2 (pixels image_2x2) y x = Some p →
                    at2 hm y x
                    = Some (f32_div (f32_of_Z (gray_of_pixel (H := cv_bt601) p)) (f32_of_Z 255))
                    ∧ in_unit (f32_div (f32_of_Z (gray_of_pixel (H := cv_bt601) p))
                                 (f32_of_Z 255)) = true)
  ∧ generate_height_map (H := cv_bt601) image_gray sample_world
    = (Raise CvError, sample_world).
Proof.
  split.
  - apply (generate_height_map_unit cv_bt601 image_2x2 sample_world wf_image_2x2 eq_refl).
    left. reflexivity.
  - apply (generate_height_map_unit cv_bt601 image_gray sample_world wf_image_gray eq_refl);
      discriminate.
Defined.

(** C6 as stated fails: a single-channel image is not passed through,
    [generate_height_map] raises on it. *)
Lemma generate_height_map_rejects_gray :
  generate_height_map (H := cv_bt601) image_gray sample_world
  = (Raise CvError, sample_world).
Proof. reflexivity. Qed.

(** C5, the code at the failing input: the command line run with a
    texture that does not decode ends in [FileNotFoundError] and writes no
    output file, while the same run without the texture writes it. *)
Theorem main_aborts_on_undecodable_texture :
  fst (main (H := cv_bt601) (H0 := text_integral)
         (Argv "drawing.png" None (Some "broken.png") None) sample_world)
  = Raise FileNotFoundError
  ∧ files (snd (main (H := cv_bt601) (H0 := text_integral)
                  (Argv "drawing.png" None (Some "broken.png") None) sample_world))
      !! "output.obj" = None
  ∧ fst (main (H := cv_bt601) (H0 := text_integral)
           (Argv "drawing.png" None None None) sample_world) = Ok tt
  ∧ is_Some (files (snd (main (H := cv_bt601) (H0 := text_integral)
                           (Argv "drawing.png" None None None) sample_world))
               !! "output.obj").
Proof. vm_compute. repeat split. by eexists. Qed.

(** The web page's texture block on the same failure: the exception is
    caught, a warning is shown, the vertex list is the one it had and the
    temporary file is removed. *)
Lemma app_texture_block_recovers :
  fst (texture_block (Some ("/tmp/tex.png", FText "not an image")) (PRef 0) mesh_world)
  = Ok (PRef 0)
  ∧ ui (snd (texture_block (Some ("/tmp/tex.png", FText "not an image")) (PRef 0) mesh_world))
    = [UiWarning FileNotFoundError]
  ∧ heap (snd (texture_block (Some ("/tmp/tex.png", FText "not an image")) (PRef 0)
                 mesh_world))
    = heap mesh_world
  ∧ files (snd (texture_block (Some ("/tmp/tex.png", FText "not an image")) (PRef 0)
                  mesh_world)) !! "/tmp/tex.png" = None.
Proof. vm_compute. done. Qed.

(** ** Textures, the OBJ file and the call of the web page *)

Lemma obj_text_no_faces `{PyText} vs : obj_text vs [] = concat_text (map vertex_text vs).
Proof. unfold obj_text. simpl. apply append_nil_r. Qed.

(** C4, as the code has it: [apply_texture] returns the vertex list it is
    given, the same object, and changes nothing; no UV coordinate is
    computed whether a texture is supplied or not, and the file the
    pipeline writes holds the vertex lines only, the same with a texture
    that decodes as without one. *)
Theorem texture_adds_no_uv (cv : Cv2) (txt : PyText) a w im v t w0 :
  default "modern" (arg_style a) ∈ choices →
  decodes w (arg_input_file a) im → wf_image im → nchan im = 3 ∨ nchan im = 4 →
  cv2_present w = true → texture_ok w (arg_texture a) →
  writable w (default "output.obj" (arg_output a)) = true →
  apply_texture v t w0 = (Ok v, w0)
  ∧ ∃ w', main a w = (Ok tt, w')
          ∧ files w' !! default "output.obj" (arg_output a)
            = Some (FText (concat_text
                             (map vertex_text
                                (styled (default "modern" (arg_style a))
                                   (grid_vertices (height_of im)))))).
Proof.
  intros Hst Hin Him Hn Hcv Htex Hout. split; [reflexivity|].
  destruct (main_writes a w im Hst Hin Him Hn Hcv Htex Hout) as (w' & Hrun & Hfiles & _).
  exists w'. split; [done|]. by rewrite Hfiles, lookup_insert_eq, obj_text_no_faces.
Qed.

Lemma texture_adds_no_uv_witness :
  apply_texture (PRef 0) image_2x2 mesh_world = (Ok (PRef 0), mesh_world)
  ∧ ∃ w', main (H := cv_bt601) (H0 := text_integral)
            (Argv "drawing.png" None (Some "strip.png") None) sample_world = (Ok tt, w')
          ∧ files w' !! "output.obj"
            = Some (FText (concat_text
                             (map (vertex_text (H := text_integral))
                                (styled "modern"
                                   (grid_vertices (height_of (H := cv_bt601) image_2x2)))))).
Proof.
  apply (texture_adds_no_uv cv_bt601 text_integral
           (Argv "drawing.png" None (Some "strip.png") None) sample_world image_2x2
           (PRef 0) image_2x2 mesh_world).
  - simpl. unfold choices. apply list_elem_of_here.
  - split; [vm_compute; reflexivity|]. split; vm_compute; discriminate.
  - exact wf_image_2x2.
  - left. reflexivity.
  - reflexivity.
  - right. exists image_1x2.
    split; [vm_compute; reflexivity|]. split; vm_compute; discriminate.
  - reflexivity.
Defined.

(** C4 as stated fails: with a texture supplied the pipeline writes the
    four vertices of a 2 x 2 image and no UV coordinate at all, and
    [apply_texture] hands back the vertex list. *)
Lemma texture_run_has_no_uv :
  apply_texture (PRef 0) image_2x2 mesh_world = (Ok (PRef 0), mesh_world)
  ∧ ∃ text m,
      files (snd (main (H := cv_bt601) (H0 := text_integral)
                    (Argv "drawing.png" None (Some "strip.png") None) sample_world))
        !! "output.obj" = Some (FText text)
      ∧ parse_obj read_integral text = Some m
      ∧ length (vertices m) = 4
      ∧ uvs m = [].
Proof.
  split; [reflexivity|]. eexists _, _.
  split; [vm_compute; reflexivity|]. split; [vm_compute; reflexivity|]. done.
Qed.

(** C8, as the code has it: [save_obj] takes a vertex sequence and a face
    sequence and no UV sequence; reading back the [v] and [f] lines of the
    file it writes gives the same vertex positions (for floats whose text
    reads back as the float, as Python's does) and the same face index
    lists, written from 1 and read back from 0, and no UV. *)
Theorem save_obj_round_trip (txt : PyText) read_float v f p vs fs w :
  holds_vertices (heap w) v vs → holds_faces (heap w) f fs →
  writable w p = true →
  Forall (vertex_reads read_float) vs →
  ∃ w' text,
    save_obj v f (PStr p) w = (Ok tt, w')
    ∧ files w' !! p = Some (FText text)
    ∧ parse_obj read_float text = Some (Mesh vs [] fs).
Proof.
  intros Hv Hf Hp Hreads. eexists _, (obj_text vs fs).
  split; [by apply save_obj_text|]. split; [simpl; by rewrite lookup_insert_eq|].
  by apply parse_obj_text.
Qed.

Lemma mesh_vertices_read : Forall (vertex_reads (H := text_integral) read_integral) mesh_vertices.
Proof. repeat constructor; vm_compute; reflexivity. Qed.

Lemma save_obj_round_trip_witness :
  ∃ w' text,
    save_obj (H := text_integral) (PRef 0) (PRef 3) (PStr "mesh.obj") mesh_world = (Ok tt, w')
    ∧ files w' !! "mesh.obj" = Some (FText text)
    ∧ parse_obj read_integral text = Some (Mesh mesh_vertices [] mesh_faces).
Proof.
  exact (save_obj_round_trip text_integral read_integral (PRef 0) (PRef 3) "mesh.obj"
           mesh_vertices mesh_faces mesh_world
           mesh_world_vertices mesh_world_faces eq_refl mesh_vertices_read).
Defined.

(** C8 as stated fails: for the mesh with these two vertices, the UV
    sequence [(0,0); (1,0)] and this face, the file holds no UV, so
    reading it back does not give the mesh. *)
Lemma save_obj_drops_uvs :
  ∃ text,
    files (snd (save_obj (H := text_integral) (PRef 0) (PRef 3) (PStr "mesh.obj") mesh_world))
      !! "mesh.obj" = Some (FText text)
    ∧ parse_obj read_integral text = Some (Mesh mesh_vertices [] mesh_faces)
    ∧ parse_obj read_integral text
      ≠ Some (Mesh mesh_vertices [(0, 0)%float; (1, 0)%float] mesh_faces).
Proof.
  eexists. split; [vm_compute; reflexivity|].
  split; [vm_compute; reflexivity|]. vm_compute. discriminate.
Qed.

Lemma save_step_raises `{PyText} tmpdir vertices_styled l w :
  save_step tmpdir vertices_styled (PRef l) w = (Raise TypeError, w).
Proof. reflexivity. Qed.

Lemma convert_raises `{Cv2} `{PyText} img_np style tex tmpdir w :
  ∃ e w', convert img_np style tex tmpdir w = (Raise e, w').
Proof.
  unfold convert. unfold bind at 1.
  destruct (generate_height_map img_np w) as [[hm|e] w1]; [|by eauto].
  unfold bind at 1.
  destruct (create_3d_mesh hm w1) as [[[v f]|e] w2] eqn:Hmesh; [|by eauto].
  apply create_3d_mesh_faces in Hmesh as [l ->].
  unfold bind at 1.
  destruct (apply_style v (PStr style) w2) as [[v1|e] w3]; [|by eauto].
  unfold bind at 1.
  destruct (texture_block tex v1 w3) as [[v2|e] w4]; [|by eauto].
  rewrite save_step_raises. by eauto.
Qed.

(** C9: the web page calls [save_obj(output_path, vertices_styled, faces)]
    while the parameters are (vertices, faces, output_path): the face list
    stands where the path is expected, so the call raises [TypeError]
    before anything is opened or written, whatever the arguments, and no
    conversion reaches its end; on a colour image without texture the
    conversion ends in that [TypeError] with the files as they were. *)
Theorem app_save_obj_call_raises (cv : Cv2) (txt : PyText) :
  (∀ tmpdir vertices_styled l w,
     save_step tmpdir vertices_styled (PRef l) w = (Raise TypeError, w))
  ∧ (∀ img_np style tex tmpdir w,
       ∃ e w', convert img_np style tex tmpdir w = (Raise e, w'))
  ∧ (∀ img_np style tmpdir w,
       wf_image img_np → nchan img_np = 3 ∨ nchan img_np = 4 → cv2_present w = true →
       ∃ w', convert img_np style None tmpdir w = (Raise TypeError, w')
             ∧ files w' = files w).
Proof.
  split; [|split].
  - intros. apply save_step_raises.
  - intros. apply convert_raises.
  - intros im style tmpdir w Hwf Hn Hcv. unfold convert.
    unfold bind at 1. rewrite (generate_height_map_colour _ _ Hwf Hn Hcv).
    assert (wf_array2 (height_of im)) as Hhm.
    { unfold height_of. apply wf_map2, wf_map2, Hwf. }
    unfold bind at 1. rewrite (create_3d_mesh_heap _ _ Hhm).
    destruct (created_holds (heap w) (height_of im)) as [Hv _].
    set (h1 := heap w ++ _) in *.
    destruct (apply_style_styled _ _ style (set_heap h1 w) Hv) as (v' & h' & Hsty & _).
    unfold bind at 1. rewrite Hsty. unfold bind at 1. simpl texture_block.
    unfold ret at 1. rewrite save_step_raises. by eexists.
Qed.

Lemma app_save_obj_call_raises_witness :
  save_step (H := text_integral) "/tmp" (PRef 0) (PRef 3) mesh_world
  = (Raise TypeError, mesh_world)
  ∧ ∃ w', convert (H := cv_bt601) (H0 := text_integral) image_2x2 "modern" None "/tmp"
            sample_world = (Raise TypeError, w')
          ∧ files w' = files sample_world.
Proof.
  destruct (app_save_obj_call_raises cv_bt601 text_integral) as (Hstep & _ & Hconv).
  split; [apply Hstep|].
  apply Hconv; [exact wf_image_2x2|by left|reflexivity].
Defined.

(** * Further properties of [main.py] and [app.py] *)

Import Relief Bounds Outcomes Page SampleRuns.

(** ** The image loader *)

Lemma list_ascii_app (a b : string) :
  list_ascii_of_string (a +:+ b) = list_ascii_of_string a ++ list_ascii_of_string b.
Proof.
  induction a as [|x a IH]; [done|]. rewrite append_cons. simpl. by rewrite IH.
Qed.

Lemma avoids_Forall c s :
  avoids c s = true → Forall (λ a, Ascii.eqb a c = false) (list_ascii_of_string s).
Proof.
  induction s as [|a s IH]; simpl; [constructor|].
  intros [Ha Hs]%andb_prop. rewrite negb_true_iff in Ha. constructor; auto.
Qed.

Lemma take_until_app c l l' :
  Forall (λ a, Ascii.eqb a c = false) l → take_until c (l ++ l') = l ++ take_until c l'.
Proof. induction 1 as [|a l Ha Hl IH]; simpl; [done|]. by rewrite Ha, IH. Qed.

Lemma take_until_stop c l l' :
  Forall (λ a, Ascii.eqb a c = false) l → take_until c (l ++ c :: l') = l.
Proof.
  intros Hl. rewrite take_until_app by done. simpl.
  by rewrite Ascii.eqb_refl, app_nil_r.
Qed.

(** The extension of a name that ends in a character other than a dot or
    a slash, a dot, and a text with neither *)
Lemma splitext_ext_suffix pre c e :
  c ≠ slash → c ≠ dot → avoids slash e = true → avoids dot e = true →
  splitext_ext (pre +:+ String c ("." +:+ e)) = "." +:+ e.
Proof.
  intros Hcs Hcd Hes Hed. unfold splitext_ext.
  apply Ascii.eqb_neq in Hcs, Hcd.
  rewrite list_ascii_app. simpl list_ascii_of_string.
  rewrite rev_app_distr. simpl rev. rewrite <- !app_assoc. simpl app.
  set (re := rev (list_ascii_of_string e)).
  set (rp := rev (list_ascii_of_string pre)).
  assert (Forall (λ a, Ascii.eqb a slash = false) re) as Hres
    by by apply List.Forall_rev, avoids_Forall.
  assert (Forall (λ a, Ascii.eqb a dot = false) re) as Hred
    by by apply List.Forall_rev, avoids_Forall.
  assert (take_until slash ("."%char :: c :: rp) = dot :: c :: take_until slash rp) as Hbase.
  { cbn [take_until]. change (Ascii.eqb "." slash) with false. cbv iota. by rewrite Hcs. }
  rewrite (take_until_app slash re), Hbase by done.
  rewrite (take_until_stop dot re) by done.
  rewrite drop_app_length. cbn [existsb]. rewrite Hcd. cbn [negb orb].
  unfold re. rewrite rev_involutive. cbn [string_of_list_ascii].
  by rewrite string_of_list_ascii_of_string.
Qed.

Lemma lower_cons a s : lower (String a s) = String (lower_ascii a) (lower s).
Proof. reflexivity. Qed.

Lemma load_image_ok_inv path w im w' :
  load_image path w = (Ok im, w') → decodes w path im ∧ cv2_present w = true ∧ w' = w.
Proof.
  unfold load_image, decodes.
  destruct (String.eqb _ ".pdf") eqn:Hpdf; [done|].
  destruct (String.eqb _ ".dwg") eqn:Hdwg; [done|].
  apply String.eqb_neq in Hpdf, Hdwg.
  destruct (cv2_present w); [|done]. simpl. unfold bind, imread.
  destruct (files w !! path) as [[im'|]|]; try done.
  by intros [= -> ->].
Qed.

Lemma load_image_raises path w e w' :
  load_image path w = (Raise e, w') →
  w' = w ∧
  ((e = NotImplementedError
    ∧ (lower (splitext_ext path) = ".pdf" ∨ lower (splitext_ext path) = ".dwg"))
   ∨ (e = ImportError ∧ cv2_present w = false)
   ∨ (e = FileNotFoundError ∧ cv2_present w = true
      ∧ ∀ im, files w !! path ≠ Some (FImage im))).
Proof.
  unfold load_image.
  destruct (String.eqb _ ".pdf") eqn:Hpdf.
  { apply String.eqb_eq in Hpdf. intros [= <- <-]. split; [done|]. left. by auto. }
  destruct (String.eqb _ ".dwg") eqn:Hdwg.
  { apply String.eqb_eq in Hdwg. intros [= <- <-]. split; [done|]. left. by auto. }
  destruct (cv2_present w); simpl.
  - unfold bind, imread. destruct (files w !! path) as [[im'|]|]; try done.
    + intros [= <- <-]. split; [done|]. right. right. done.
    + intros [= <- <-]. split; [done|]. right. right. done.
  - intros [= <- <-]. split; [done|]. right. left. done.
Qed.

Lemma load_image_set_heap p h w :
  load_image p (set_heap h w) = (fst (load_image p w), set_heap h w).
Proof.
  unfold load_image.
  destruct (String.eqb _ ".pdf"); [done|]. destruct (String.eqb _ ".dwg"); [done|].
  simpl. destruct (cv2_present w); [|done]. simpl. unfold bind, imread. simpl.
  by destruct (files w !! p) as [[]|].
Qed.

Lemma decodes_drawing w : files w = sample_files → decodes w "drawing.png" image_2x2.
Proof.
  intros Hf. split; [by rewrite Hf|]. split; vm_compute; discriminate.
Qed.

(** X1: [load_image] returns an image exactly when the path does not have
    the extension of a placeholder format, OpenCV was imported and the
    file at the path decodes; the image is the decoded file and the world
    is left as it was. *)
Theorem load_image_ok_iff path w im w' :
  load_image path w = (Ok im, w') ↔ decodes w path im ∧ cv2_present w = true ∧ w' = w.
Proof.
  split; [apply load_image_ok_inv|].
  intros (Hd & Hcv & ->). by apply load_image_decodes.
Qed.

Lemma load_image_ok_iff_witness :
  load_image "drawing.png" sample_world = (Ok image_2x2, sample_world).
Proof.
  apply (proj2 (load_image_ok_iff "drawing.png" sample_world image_2x2 sample_world)).
  split; [by apply decodes_drawing|]. split; reflexivity.
Defined.

(** X2: when [load_image] raises, the world is unchanged and the
    exception is [NotImplementedError] (the extension is .pdf or .dwg in
    any letter case), [ImportError] (OpenCV was not imported), or
    [FileNotFoundError] (OpenCV is there and the file is missing or is not
    an image); it raises nothing else. *)
Theorem load_image_errors path w e w' :
  load_image path w = (Raise e, w') →
  w' = w ∧
  ((e = NotImplementedError
    ∧ (lower (splitext_ext path) = ".pdf" ∨ lower (splitext_ext path) = ".dwg"))
   ∨ (e = ImportError ∧ cv2_present w = false)
   ∨ (e = FileNotFoundError ∧ cv2_present w = true
      ∧ ∀ im, files w !! path ≠ Some (FImage im))).
Proof. apply load_image_raises. Qed.

Lemma load_image_errors_witness :
  sample_world = sample_world ∧
  ((FileNotFoundError = NotImplementedError
    ∧ (lower (splitext_ext "broken.png") = ".pdf" ∨ lower (splitext_ext "broken.png") = ".dwg"))
   ∨ (FileNotFoundError = ImportError ∧ cv2_present sample_world = false)
   ∨ (FileNotFoundError = FileNotFoundError ∧ cv2_present sample_world = true
      ∧ ∀ im, files sample_world !! "broken.png" ≠ Some (FImage im))).
Proof.
  apply (load_image_errors "broken.png" sample_world FileNotFoundError sample_world).
  vm_compute. reflexivity.
Defined.

(** X3: a path whose name ends in .pdf or .dwg, in any letter case, after
    a character that is neither a dot nor a slash, is refused with
    [NotImplementedError] before OpenCV or the file system is looked at:
    whether or not OpenCV is there and whether or not the file exists. *)
Theorem load_image_placeholder_formats pre c e w :
  c ≠ slash → c ≠ dot → avoids slash e = true → avoids dot e = true →
  lower e = "pdf" ∨ lower e = "dwg" →
  load_image (pre +:+ String c ("." +:+ e)) w = (Raise NotImplementedError, w).
Proof.
  intros Hcs Hcd Hes Hed He. unfold load_image.
  rewrite splitext_ext_suffix by done.
  change ("." +:+ e) with (String "." e). rewrite lower_cons.
  change (lower_ascii ".") with "."%char.
  by destruct He as [-> | ->].
Qed.

Lemma load_image_placeholder_formats_witness :
  load_image "plans/house.PDF" no_cv2_world = (Raise NotImplementedError, no_cv2_world)
  ∧ load_image "drawing.png.Dwg" sample_world = (Raise NotImplementedError, sample_world).
Proof.
  split.
  - apply (load_image_placeholder_formats "plans/hous" "e" "PDF");
      [discriminate|discriminate|reflexivity|reflexivity|by left].
  - apply (load_image_placeholder_formats "drawing.pn" "g" "Dwg");
      [discriminate|discriminate|reflexivity|reflexivity|by right].
Defined.

(** ** The height map *)

(** X4: [generate_height_map] never changes the world; it returns a
    height map exactly when OpenCV was imported and the image is not
    empty and has three or four channels, and the map is then the
    normalised luminance of the image; without OpenCV it raises
    [AttributeError] (not [ImportError]), and otherwise only the error of
    the colour conversion. *)
Theorem generate_height_map_outcome (cv : Cv2) im w :
  snd (generate_height_map im w) = w
  ∧ (∀ hm, fst (generate_height_map im w) = Ok hm ↔
       cv2_present w = true
       ∧ fst (shape (pixels im)) ≠ 0 ∧ snd (shape (pixels im)) ≠ 0
       ∧ (nchan im = 3 ∨ nchan im = 4)
       ∧ hm = height_of im)
  ∧ (fst (generate_height_map im w) = Raise AttributeError ↔ cv2_present w = false)
  ∧ (∀ e, fst (generate_height_map im w) = Raise e → e = AttributeError ∨ e = CvError).
Proof.
  unfold generate_height_map, cvtColor_BGR2GRAY, height_of, sample_of.
  destruct (cv2_present w); simpl.
  - destruct (shape (pixels im)) as [h wd]. simpl.
    destruct h as [|h]; simpl.
    { split; [done|]. split; [|split; [done|by intros e [= <-]; right]].
      intros hm. split; [done|]. by intros (_ & ? & _). }
    destruct wd as [|wd]; simpl.
    { split; [done|]. split; [|split; [done|by intros e [= <-]; right]].
      intros hm. split; [done|]. by intros (_ & _ & ? & _). }
    destruct (nchan im =? 3) eqn:H3; simpl.
    { apply Nat.eqb_eq in H3. split; [done|]. split; [|split; [done|done]].
      intros hm. unfold bind, ret. simpl. split.
      - intros [= <-]. repeat split; auto.
      - by intros (_ & _ & _ & _ & ->). }
    destruct (nchan im =? 4) eqn:H4; simpl.
    { apply Nat.eqb_eq in H4. split; [done|]. split; [|split; [done|done]].
      intros hm. unfold bind, ret. simpl. split.
      - intros [= <-]. repeat split; auto.
      - by intros (_ & _ & _ & _ & ->). }
    apply Nat.eqb_neq in H3, H4.
    split; [done|]. split; [|split; [done|by intros e [= <-]; right]].
    intros hm. split; [done|]. intros (_ & _ & _ & [?|?] & _); done.
  - split; [done|]. split; [|split; [done|by intros e [= <-]; left]].
    intros hm. split; [done|]. by intros (? & _).
Qed.

Lemma generate_height_map_outcome_witness :
  fst (generate_height_map (H := cv_bt601) image_2x2 sample_world)
  = Ok (height_of (H := cv_bt601) image_2x2)
  ∧ fst (generate_height_map (H := cv_bt601) image_2x2 no_cv2_world) = Raise AttributeError.
Proof.
  split.
  - apply (proj1 (proj2 (generate_height_map_outcome cv_bt601 image_2x2 sample_world))).
    simpl. repeat split; lia.
  - apply (proj1 (proj2 (proj2 (generate_height_map_outcome cv_bt601 image_2x2 no_cv2_world)))).
    reflexivity.
Defined.

Lemma increasing_lookup l i j a b :
  increasing l = true → i < j → l !! i = Some a → l !! j = Some b → rises a b = true.
Proof.
  revert i j. induction l as [|x l IH]; intros i j Hl Hij Hi Hj; [done|].
  simpl in Hl. apply andb_prop in Hl as [Hx Hl].
  destruct j as [|j]; [lia|]. destruct i as [|i].
  - simpl in Hi, Hj. injection Hi as ->.
    rewrite forallb_forall in Hx. apply Hx.
    apply list_elem_of_In. by eapply list_elem_of_lookup_2.
  - simpl in Hi, Hj. apply (IH i j); [done|lia|done|done].
Qed.

(** The 256 samples, in the order of the luminance *)
Lemma samples_increasing :
  increasing (map (λ n, sample_of (Z.of_nat n)) (seq 0 256)) = true.
Proof. vm_compute. reflexivity. Qed.

Lemma sample_of_rises g1 g2 :
  is_u8 g1 → is_u8 g2 → (g1 < g2)%Z → rises (sample_of g1) (sample_of g2) = true.
Proof.
  intros [H1 H1'] [H2 H2'] Hlt.
  apply (increasing_lookup _ (Z.to_nat g1) (Z.to_nat g2) _ _ samples_increasing); [lia| |].
  - rewrite list_lookup_fmap, lookup_seq_lt by lia. simpl. by rewrite Z2Nat.id.
  - rewrite list_lookup_fmap, lookup_seq_lt by lia. simpl. by rewrite Z2Nat.id.
Qed.

(** X5: the height follows the luminance.  In the height map of a colour
    image, a pixel of smaller luminance has a strictly smaller height,
    as a float32 sample and as the Python float of the vertex; luminance 0
    gives exactly 0.0 and luminance 255 exactly 1.0. *)
Theorem generate_height_map_order (cv : Cv2) im w y1 x1 p1 y2 x2 p2 :
  wf_image im → nchan im = 3 ∨ nchan im = 4 → cv2_present w = true →
  at2 (pixels im) y1 x1 = Some p1 → at2 (pixels im) y2 x2 = Some p2 →
  ∃ hm z1 z2,
    generate_height_map im w = (Ok hm, w)
    ∧ at2 hm y1 x1 = Some z1 ∧ at2 hm y2 x2 = Some z2
    ∧ ((gray_of_pixel p1 < gray_of_pixel p2)%Z →
       SFltb z1 z2 = true ∧ (float_of_f32 z1 <? float_of_f32 z2)%float = true)
    ∧ (gray_of_pixel p1 = 0%Z → float_of_f32 z1 = 0%float)
    ∧ (gray_of_pixel p1 = 255%Z → float_of_f32 z1 = 1%float).
Proof.
  intros Hwf Hn Hcv Hp1 Hp2.
  exists (height_of im), (sample_of (gray_of_pixel p1)), (sample_of (gray_of_pixel p2)).
  split; [by apply generate_height_map_colour|].
  destruct (height_of_sample im y1 x1 p1 Hwf Hn Hp1) as [Hz1 _].
  destruct (height_of_sample im y2 x2 p2 Hwf Hn Hp2) as [Hz2 _].
  split; [done|]. split; [done|].
  destruct Hwf as (_ & _ & _ & Hpix).
  pose proof (at2_Forall _ _ _ _ _ Hpix Hp1) as [Hl1 Hu1].
  pose proof (at2_Forall _ _ _ _ _ Hpix Hp2) as [Hl2 Hu2].
  split; [|split].
  - intros Hlt. apply andb_prop. apply sample_of_rises; [| |done].
    + by apply (gray_of_pixel_u8 p1 (nchan im)).
    + by apply (gray_of_pixel_u8 p2 (nchan im)).
  - intros ->. vm_compute. reflexivity.
  - intros ->. vm_compute. reflexivity.
Qed.

Lemma generate_height_map_order_witness :
  ∃ hm z1 z2,
    generate_height_map (H := cv_bt601) image_2x2 sample_world = (Ok hm, sample_world)
    ∧ at2 hm 0 0 = Some z1 ∧ at2 hm 0 1 = Some z2
    ∧ SFltb z1 z2 = true ∧ (float_of_f32 z1 <? float_of_f32 z2)%float = true
    ∧ float_of_f32 z1 = 0%float.
Proof.
  destruct (generate_height_map_order cv_bt601 image_2x2 sample_world 0 0 black 0 1 white
              wf_image_2x2 (or_introl eq_refl) eq_refl eq_refl eq_refl)
    as (hm & z1 & z2 & Hrun & Hz1 & Hz2 & Hlt & Hzero & _).
  exists hm, z1, z2. split; [exact Hrun|]. split; [exact Hz1|]. split; [exact Hz2|].
  split; [apply Hlt; vm_compute; reflexivity|].
  split; [apply Hlt; vm_compute; reflexivity|].
  apply Hzero. vm_compute. reflexivity.
Defined.

(** ** The objects [create_3d_mesh] and [apply_style] create *)

Lemma is_list_bound h v items : is_list h v items → ∃ l, v = PRef l ∧ l < length h.
Proof. intros (l & -> & Hl). exists l. split; [done|]. by eapply lookup_lt_Some. Qed.

Lemma fresh_refs_above (n k : nat) r : r ∈ map PRef (seq n k) → ∃ l, r = PRef l ∧ n ≤ l.
Proof.
  intros (l & -> & Hl)%list_elem_of_fmap. exists l. split; [done|].
  apply list_elem_of_In, in_seq in Hl. lia.
Qed.

Lemma NoDup_fresh_refs (n k : nat) : NoDup (map PRef (seq n k)).
Proof.
  assert (Inj eq eq PRef) as Hinj by (by intros ?? [= ->]).
  apply (NoDup_fmap_2 PRef), NoDup_ListNoDup, List.seq_NoDup.
Qed.

Lemma grid_vertices_empty hm :
  wf_array2 hm → fst (shape hm) = 0 ∨ snd (shape hm) = 0 → grid_vertices hm = [].
Proof.
  intros Hwf H0. apply length_zero_iff_nil. rewrite grid_vertices_length by done.
  destruct H0 as [-> | ->]; lia.
Qed.

(** X6: [create_3d_mesh] only allocates.  It returns two new list
    objects, the vertex list and the (empty) face list, at different
    addresses; every vertex is a new object of its own, none listed twice;
    the objects that existed before the call are unchanged, and so are
    the files and the output. *)
Theorem create_3d_mesh_allocates hm w :
  wf_array2 hm →
  ∃ v f h' refs,
    create_3d_mesh hm w = (Ok (v, f), set_heap (heap w ++ h') w)
    ∧ v = PRef (length (heap w)) ∧ f = PRef (S (length (heap w)))
    ∧ is_list (heap w ++ h') v refs
    ∧ is_list (heap w ++ h') f []
    ∧ NoDup refs
    ∧ length refs = fst (shape hm) * snd (shape hm)
    ∧ Forall (λ r, ∃ l, r = PRef l ∧ length (heap w) + 2 ≤ l) refs.
Proof.
  intros Hwf. eexists _, _, _, _. split; [by apply create_3d_mesh_heap|].
  split; [done|]. split; [done|]. split; [|split; [|split; [|split]]].
  - eexists. split; [done|]. rewrite lookup_app_r by lia.
    by rewrite Nat.sub_diag.
  - eexists. split; [done|]. rewrite lookup_app_r by lia.
    by replace (S (length (heap w)) - length (heap w)) with 1 by lia.
  - apply NoDup_fresh_refs.
  - by rewrite length_map, length_seq, grid_vertices_length.
  - apply Forall_forall. intros r Hr. by apply fresh_refs_above in Hr.
Qed.

Lemma create_3d_mesh_allocates_witness :
  ∃ v f h' refs,
    create_3d_mesh height_2x2 mesh_world = (Ok (v, f), set_heap (heap mesh_world ++ h') mesh_world)
    ∧ v = PRef 5 ∧ f = PRef 6
    ∧ is_list (heap mesh_world ++ h') v refs
    ∧ is_list (heap mesh_world ++ h') f []
    ∧ NoDup refs
    ∧ length refs = 2 * 2
    ∧ Forall (λ r, ∃ l, r = PRef l ∧ 5 + 2 ≤ l) refs.
Proof. exact (create_3d_mesh_allocates height_2x2 mesh_world wf_height_2x2). Defined.

(** X7: on a height map with no row or no column [create_3d_mesh] raises
    nothing and returns two new empty lists. *)
Theorem create_3d_mesh_empty hm w :
  wf_array2 hm → fst (shape hm) = 0 ∨ snd (shape hm) = 0 →
  create_3d_mesh hm w
  = (Ok (PRef (length (heap w)), PRef (S (length (heap w)))),
     set_heap (heap w ++ [[]; []]) w).
Proof.
  intros Hwf H0. rewrite create_3d_mesh_heap by done.
  by rewrite grid_vertices_empty.
Qed.

Lemma create_3d_mesh_empty_witness :
  create_3d_mesh (Array2 (0, 3) []) sample_world
  = (Ok (PRef 0, PRef 1), set_heap [[]; []] sample_world)
  ∧ create_3d_mesh (Array2 (2, 0) [[]; []]) sample_world
    = (Ok (PRef 0, PRef 1), set_heap [[]; []] sample_world).
Proof.
  split.
  - apply (create_3d_mesh_empty (Array2 (0, 3) []) sample_world).
    + split; [reflexivity|constructor].
    + left. reflexivity.
  - apply (create_3d_mesh_empty (Array2 (2, 0) [[]; []]) sample_world).
    + split; [reflexivity|repeat constructor].
    + right. reflexivity.
Defined.

(** X8: with "classic" or "nostalgic" [apply_style] makes a deep copy.
    The result is a new list, not the argument; its vertices are new
    objects, none of them an object that existed before; the argument
    still holds the vertices it held, and the new list holds them with z
    scaled. *)
Theorem apply_style_copies v vs style c w :
  holds_vertices (heap w) v vs → style_factor style = Some c →
  ∃ v' h' refs',
    apply_style v (PStr style) w = (Ok v', set_heap (heap w ++ h') w)
    ∧ v' ≠ v
    ∧ holds_vertices (heap w ++ h') v vs
    ∧ holds_vertices (heap w ++ h') v' (map (scale_z c) vs)
    ∧ is_list (heap w ++ h') v' refs'
    ∧ NoDup refs'
    ∧ ∀ r items, is_list (heap w) r items → r ≠ v' ∧ r ∉ refs'.
Proof.
  intros Hv Hc. eexists _, _, _. split; [by apply apply_style_factor|].
  pose proof (holds_fresh (heap w) [] (map (scale_z c) vs)) as Hnew.
  simpl in Hnew. rewrite Nat.add_0_r, length_map in Hnew.
  assert (∀ r items, is_list (heap w) r items →
            r ≠ PRef (length (heap w))
            ∧ r ∉ map PRef (seq (S (length (heap w))) (length vs))) as Hold.
  { intros r items (l & -> & Hl)%is_list_bound. split.
    - intros [= ->]. lia.
    - intros (l' & [= <-] & Hl')%fresh_refs_above. lia. }
  split; [|split; [by apply holds_vertices_extend|split; [exact Hnew|split; [|split]]]].
  - destruct Hv as (refs & Hvl & _). intros <-. by destruct (Hold _ _ Hvl).
  - eexists. split; [done|]. rewrite lookup_app_r by lia. by rewrite Nat.sub_diag.
  - apply NoDup_fresh_refs.
  - exact Hold.
Qed.

Lemma apply_style_copies_witness :
  ∃ v' h' refs',
    apply_style (PRef 0) (PStr "classic") mesh_world
    = (Ok v', set_heap (heap mesh_world ++ h') mesh_world)
    ∧ v' ≠ PRef 0
    ∧ holds_vertices (heap mesh_world ++ h') (PRef 0) mesh_vertices
    ∧ holds_vertices (heap mesh_world ++ h') v' (map (scale_z 0.5) mesh_vertices)
    ∧ is_list (heap mesh_world ++ h') v' refs'
    ∧ NoDup refs'
    ∧ ∀ r items, is_list (heap mesh_world) r items → r ≠ v' ∧ r ∉ refs'.
Proof.
  exact (apply_style_copies (PRef 0) mesh_vertices "classic" 0.5 mesh_world
           mesh_world_vertices eq_refl).
Defined.

(** X9: styles compose.  Applying one style to the result of another
    gives, index by index, the vertices scaled by the first factor and
    then by the second (a style without factor changes nothing), in a list
    of the same length, and leaves the first argument as it was. *)
Theorem apply_style_compose v vs s1 s2 w :
  holds_vertices (heap w) v vs →
  ∃ v2 h',
    (v1 <- apply_style v (PStr s1) ;; apply_style v1 (PStr s2)) w
    = (Ok v2, set_heap (heap w ++ h') w)
    ∧ holds_vertices (heap w ++ h') v2 (styled s2 (styled s1 vs))
    ∧ holds_vertices (heap w ++ h') v vs
    ∧ length (styled s2 (styled s1 vs)) = length vs.
Proof.
  intros Hv.
  destruct (apply_style_styled v vs s1 w Hv) as (v1 & h1 & Hrun1 & Hv1).
  destruct (apply_style_styled v1 (styled s1 vs) s2 (set_heap (heap w ++ h1) w) Hv1)
    as (v2 & h2 & Hrun2 & Hv2).
  simpl heap in Hrun2, Hv2. rewrite set_heap_twice, <- app_assoc in Hrun2.
  rewrite <- app_assoc in Hv2.
  exists v2, (h1 ++ h2). unfold bind. rewrite Hrun1, Hrun2.
  split; [done|]. split; [done|]. split; [by apply holds_vertices_extend|].
  by rewrite !styled_length.
Qed.

Lemma apply_style_compose_witness :
  ∃ v2 h',
    (v1 <- apply_style (PRef 0) (PStr "classic") ;; apply_style v1 (PStr "nostalgic")) mesh_world
    = (Ok v2, set_heap (heap mesh_world ++ h') mesh_world)
    ∧ holds_vertices (heap mesh_world ++ h') v2 [(0, 0, 0.75)%float; (1, 0, 0)%float]
    ∧ holds_vertices (heap mesh_world ++ h') (PRef 0) mesh_vertices
    ∧ length [(0, 0, 0.75)%float; (1, 0, 0)%float] = length mesh_vertices.
Proof.
  exact (apply_style_compose (PRef 0) mesh_vertices "classic" "nostalgic" mesh_world
           mesh_world_vertices).
Defined.

Lemma for_each_app {A} (xs ys : list A) body w :
  for_each (xs ++ ys) body w = (for_each xs body ;; for_each ys body) w.
Proof.
  revert w. induction xs as [|x xs IH]; intros w; [done|].
  simpl. unfold bind. destruct (body x w) as [[[]|e] w1]; [|done].
  by rewrite IH.
Qed.

Lemma scaled_vertex_short c r items w :
  is_list (heap w) r items → length items < 3 →
  scaled_vertex c r w = (Raise IndexError, w).
Proof.
  intros (l & -> & Hl) Hlen. unfold scaled_vertex, bind, getitem.
  rewrite Hl. destruct items as [|a [|b [|z items]]]; simpl in *; try lia; try done.
  - by rewrite Hl.
  - rewrite Hl. simpl. by rewrite Hl.
Qed.

Lemma list_comp_short c v good bad rest vs items w :
  is_list (heap w) v (good ++ bad :: rest) →
  Forall2 (λ r p, is_list (heap w) r (vertex_obj p)) good vs →
  is_list (heap w) bad items → length items < 3 →
  list_comp v (scaled_vertex c) w
  = (Raise IndexError,
     set_heap (heap w ++ map PRef (seq (S (length (heap w))) (length vs))
                      :: map vertex_obj (map (scale_z c) vs)) w).
Proof.
  intros (l & -> & Hl) Hgood Hbad Hlen. unfold list_comp.
  unfold bind at 1. unfold items_of. rewrite Hl.
  unfold bind at 1. unfold new_list at 1.
  unfold bind at 1. rewrite for_each_app. unfold bind at 1.
  assert (Forall2 (λ r p, pushes (heap w)
            (x <- scaled_vertex c r ;; list_append (PRef (length (heap w))) x)
            [vertex_obj (scale_z c p)]) good vs) as Hbody.
  { eapply Forall2_impl; [exact Hgood|]. intros r p Hr. by apply pushes_scaled. }
  rewrite (pushes_for_each2 (heap w) good vs _ (λ p, vertex_obj (scale_z c p))
             Hbody _ [] []); [|done].
  simpl for_each. unfold bind at 1 2.
  rewrite (scaled_vertex_short c bad items).
  - unfold pushed. rewrite !set_heap_twice. simpl.
    rewrite !length_map, Nat.add_0_r. by rewrite <- list_fmap_compose.
  - simpl heap. unfold pushed. by apply is_list_extend.
  - done.
Qed.

(** X10: a vertex with fewer than three components.  With "classic" or
    "nostalgic" [apply_style] raises [IndexError] when it reaches such a
    vertex, having changed no object that existed before the call; with
    "modern" it returns the list unexamined. *)
Theorem apply_style_short_vertex v good bad rest vs items style c w :
  is_list (heap w) v (good ++ bad :: rest) →
  Forall2 (λ r p, is_list (heap w) r (vertex_obj p)) good vs →
  is_list (heap w) bad items → length items < 3 →
  style_factor style = Some c →
  (∃ h', apply_style v (PStr style) w = (Raise IndexError, set_heap (heap w ++ h') w))
  ∧ apply_style v (PStr "modern") w = (Ok v, w).
Proof.
  intros Hv Hgood Hbad Hlen Hc. split; [|done].
  unfold apply_style, style_factor in *. simpl.
  destruct (String.eqb style "classic").
  - injection Hc as <-. eexists. by eapply list_comp_short.
  - destruct (String.eqb style "nostalgic"); [|done].
    injection Hc as <-. eexists. by eapply list_comp_short.
Qed.

Lemma apply_style_short_vertex_witness :
  (∃ h', apply_style (PRef 0) (PStr "nostalgic") short_vertex_world
         = (Raise IndexError, set_heap (heap short_vertex_world ++ h') short_vertex_world))
  ∧ apply_style (PRef 0) (PStr "modern") short_vertex_world = (Ok (PRef 0), short_vertex_world).
Proof.
  apply (apply_style_short_vertex (PRef 0) [PRef 1] (PRef 2) [PRef 1] [(0, 0, 1)%float]
           [PFloat 1; PFloat 0] "nostalgic" 1.5 short_vertex_world).
  - by exists 0.
  - repeat constructor. by exists 1.
  - by exists 2.
  - simpl. lia.
  - reflexivity.
Defined.

(** ** What [save_obj] leaves on disk *)

Section Saved.
Context `{PyText}.

Lemma vertex_line_short r items w :
  is_list (heap w) r items → length items < 3 →
  vertex_line r w = (Raise IndexError, w).
Proof.
  intros (l & -> & Hl) Hlen. unfold vertex_line, bind, getitem, py_str.
  rewrite Hl. destruct items as [|a [|b [|c items]]]; simpl in *; try lia; try done.
  - rewrite Hl. done.
  - rewrite Hl. simpl. by rewrite Hl.
Qed.

(** X11: [save_obj] replaces the file.  Whatever the file at the output
    path held, after the call it holds the lines of the mesh and nothing
    else; no other file and no object is changed; saving the same mesh
    again changes nothing. *)
Theorem save_obj_replaces_file v f p vs fs w :
  holds_vertices (heap w) v vs → holds_faces (heap w) f fs →
  writable w p = true →
  ∃ w', save_obj v f (PStr p) w = (Ok tt, w')
        ∧ heap w' = heap w
        ∧ files w' !! p = Some (FText (obj_text vs fs))
        ∧ (∀ q, q ≠ p → files w' !! q = files w !! q)
        ∧ save_obj v f (PStr p) w' = (Ok tt, w').
Proof.
  intros Hv Hf Hp. eexists. split; [by apply save_obj_text|].
  split; [done|]. split; [simpl; by rewrite lookup_insert_eq|].
  split; [intros q Hq; simpl; by rewrite lookup_insert_ne|].
  rewrite (save_obj_text v f p vs fs) by done.
  simpl. by rewrite set_files_twice, insert_insert_eq.
Qed.

(** X12: [save_obj] is not atomic.  The file is opened, and so emptied,
    before the vertices are looked at; when a vertex has fewer than three
    components the call raises [IndexError] and leaves at the output path
    a file with the lines of the vertices before it, and no face line. *)
Theorem save_obj_partial_file v f p good bad rest vs items w :
  is_list (heap w) v (good ++ bad :: rest) →
  Forall2 (λ r q, is_list (heap w) r (vertex_obj q)) good vs →
  is_list (heap w) bad items → length items < 3 →
  writable w p = true →
  save_obj v f (PStr p) w
  = (Raise IndexError,
     set_files (<[p := FText (concat_text (map vertex_text vs))]> (files w)) w).
Proof.
  intros (lv & -> & Hlv) Hgood Hbad Hlen Hp.
  unfold save_obj. unfold bind at 1. unfold open_w. rewrite Hp.
  unfold bind at 1. unfold items_of at 1. simpl heap. rewrite Hlv.
  assert (writes (heap w) p
            (for_each good (λ v, line <- vertex_line v ;; file_write p line))
            (concat_text (map vertex_text vs))) as Hwv.
  { apply writes_for_each2. eapply Forall2_impl; [exact Hgood|].
    intros r q Hr. by apply writes_vertex. }
  unfold bind at 1. rewrite for_each_app. unfold bind at 1.
  rewrite (Hwv _ ""); [|done|simpl; by rewrite lookup_insert_eq].
  simpl for_each. unfold bind at 1 2.
  rewrite (vertex_line_short bad items) by done.
  simpl. by rewrite !set_files_twice, !insert_insert_eq.
Qed.

End Saved.

Lemma save_obj_replaces_file_witness :
  ∃ w', save_obj (H := text_integral) (PRef 0) (PRef 3) (PStr "mesh.obj") stale_world
        = (Ok tt, w')
        ∧ heap w' = heap stale_world
        ∧ files w' !! "mesh.obj"
          = Some (FText (obj_text (H := text_integral) mesh_vertices mesh_faces))
        ∧ (∀ q, q ≠ "mesh.obj" → files w' !! q = files stale_world !! q)
        ∧ save_obj (H := text_integral) (PRef 0) (PRef 3) (PStr "mesh.obj") w' = (Ok tt, w').
Proof.
  exact (save_obj_replaces_file (H := text_integral) (PRef 0) (PRef 3) "mesh.obj"
           mesh_vertices mesh_faces stale_world mesh_world_vertices mesh_world_faces eq_refl).
Defined.

Lemma save_obj_partial_file_witness :
  save_obj (H := text_integral) (PRef 0) (PRef 3) (PStr "mesh.obj") short_vertex_world
  = (Raise IndexError,
     set_files (<["mesh.obj" := FText ("v 0.0 0.0 1.0" +:+ nl)]> ∅) short_vertex_world).
Proof.
  apply (save_obj_partial_file (H := text_integral) (PRef 0) (PRef 3) "mesh.obj"
           [PRef 1] (PRef 2) [PRef 1] [(0, 0, 1)%float] [PFloat 1; PFloat 0]
           short_vertex_world).
  - by exists 0.
  - repeat constructor. by exists 1.
  - by exists 2.
  - simpl. lia.
  - reflexivity.
Defined.

(** ** Every way the command line run can end *)

Ltac in_list :=
  unfold main_errors; repeat (first [by apply list_elem_of_here | apply list_elem_of_further]).

Section Outcome.
Context `{Cv2} `{PyText}.

(** The run up to the texture: the styled vertex list and the empty face
    list are in the heap, nothing else has changed *)
Lemma main_styled a w im :
  let st := default "modern" (arg_style a) in
  let out := default "output.obj" (arg_output a) in
  st ∈ choices →
  decodes w (arg_input_file a) im → wf_image im → nchan im = 3 ∨ nchan im = 4 →
  cv2_present w = true →
  ∃ v' h,
    holds_vertices (heap w ++ h) v' (styled st (grid_vertices (height_of im)))
    ∧ holds_faces (heap w ++ h) (PRef (S (length (heap w)))) []
    ∧ main a w
      = (vertices <- match arg_texture a with
                     | Some t => if String.eqb t "" then ret v'
                                 else (texture_img <- load_image t ;;
                                       apply_texture v' texture_img)
                     | None => ret v'
                     end ;;
         save_obj vertices (PRef (S (length (heap w)))) (PStr out) ;;
         print ("Model saved to " +:+ out)) (set_heap (heap w ++ h) w).
Proof.
  intros st out Hst Hin Hwf Hn Hcv.
  assert (wf_array2 (height_of im)) as Hhm.
  { unfold height_of. apply wf_map2, wf_map2. apply Hwf. }
  destruct (created_holds (heap w) (height_of im)) as [Hv Hf].
  set (h1 := heap w ++ _) in *.
  destruct (apply_style_styled _ _ st (set_heap h1 w) Hv) as (v' & h' & Hsty & Hv').
  simpl heap in Hsty, Hv'. rewrite set_heap_twice in Hsty.
  unfold h1 in Hv'. rewrite <- app_assoc in Hv'.
  eexists v', _. split; [exact Hv'|].
  split; [rewrite app_assoc; by apply holds_faces_extend|].
  unfold main. unfold bind at 1. unfold parse_args. fold st out.
  rewrite bool_decide_eq_true_2 by done. unfold ret at 1. cbn [input_file style texture output].
  unfold bind at 1. rewrite (load_image_decodes _ _ _ Hin Hcv).
  unfold bind at 1. rewrite (generate_height_map_colour _ _ Hwf Hn Hcv).
  unfold bind at 1. rewrite (create_3d_mesh_heap _ _ Hhm). fold h1.
  unfold bind at 1. rewrite Hsty. unfold h1. by rewrite <- app_assoc.
Qed.

Lemma main_stops_at_texture a w im t e :
  default "modern" (arg_style a) ∈ choices →
  decodes w (arg_input_file a) im → wf_image im → nchan im = 3 ∨ nchan im = 4 →
  cv2_present w = true →
  arg_texture a = Some t → t ≠ "" → fst (load_image t w) = Raise e →
  ∃ w', main a w = (Raise e, w')
        ∧ files w' = files w ∧ stdout w' = stdout w.
Proof.
  intros Hst Hin Hwf Hn Hcv Ht Hne Hload.
  destruct (main_styled a w im Hst Hin Hwf Hn Hcv) as (v' & h & _ & _ & ->).
  rewrite Ht. apply String.eqb_neq in Hne. rewrite Hne.
  unfold bind. rewrite load_image_set_heap, Hload. by eexists.
Qed.

Lemma main_stops_at_open a w im :
  default "modern" (arg_style a) ∈ choices →
  decodes w (arg_input_file a) im → wf_image im → nchan im = 3 ∨ nchan im = 4 →
  cv2_present w = true → texture_ok w (arg_texture a) →
  writable w (default "output.obj" (arg_output a)) = false →
  ∃ w', main a w = (Raise OSError, w')
        ∧ files w' = files w ∧ stdout w' = stdout w.
Proof.
  intros Hst Hin Hwf Hn Hcv Htex Hout.
  destruct (main_styled a w im Hst Hin Hwf Hn Hcv) as (v' & h & _ & _ & ->).
  set (w2 := set_heap (heap w ++ h) w).
  assert ((λ w0, match arg_texture a with
           | Some t => if String.eqb t "" then ret v'
                       else (texture_img <- load_image t ;; apply_texture v' texture_img)
           | None => ret v'
           end w0) w2 = (Ok v', w2)) as Htx.
  { destruct (arg_texture a) as [t|]; [|done].
    destruct (String.eqb t "") eqn:Ht; [done|].
    destruct Htex as [-> | [tim Htim]]; [done|].
    unfold bind. by rewrite (load_image_decodes w2 t tim). }
  unfold bind at 1. cbv beta in Htx. rewrite Htx.
  unfold bind at 1. unfold save_obj. unfold bind at 1. unfold open_w.
  simpl writable. rewrite Hout. by eexists.
Qed.

(** X13: a texture that cannot be loaded aborts the run.  When the input
    is a colour image and the texture option names a path that
    [load_image] refuses, whatever the reason, [main] ends with that
    exception: the output file is not written, no other file is changed
    and nothing is printed. *)
Theorem main_texture_failure a w im t e :
  default "modern" (arg_style a) ∈ choices →
  decodes w (arg_input_file a) im → wf_image im → nchan im = 3 ∨ nchan im = 4 →
  cv2_present w = true →
  arg_texture a = Some t → t ≠ "" → fst (load_image t w) = Raise e →
  ∃ w', main a w = (Raise e, w')
        ∧ files w' = files w ∧ stdout w' = stdout w.
Proof. apply main_stops_at_texture. Qed.

(** X14: when the output path cannot be opened for writing, [main] ends
    with [OSError] after the mesh has been computed; no file is changed
    and nothing is printed. *)
Theorem main_unwritable_output a w im :
  default "modern" (arg_style a) ∈ choices →
  decodes w (arg_input_file a) im → wf_image im → nchan im = 3 ∨ nchan im = 4 →
  cv2_present w = true → texture_ok w (arg_texture a) →
  writable w (default "output.obj" (arg_output a)) = false →
  ∃ w', main a w = (Raise OSError, w')
        ∧ files w' = files w ∧ stdout w' = stdout w.
Proof. apply main_stops_at_open. Qed.

(** X15: the ways a run of [main] ends, when the image files are decoded
    colour images (what [cv2.imread] yields).  Either it returns, and then
    it has written the output file, changed no other file and printed the
    one line "Model saved to ..."; or it raises [SystemExit] (the style is
    not a choice), [NotImplementedError], [ImportError],
    [FileNotFoundError] or [OSError], and then no file is changed, none is
    left half written, and nothing is printed. *)
Theorem main_outcome a w :
  (∀ p im, files w !! p = Some (FImage im) → wf_image im ∧ (nchan im = 3 ∨ nchan im = 4)) →
  let out := default "output.obj" (arg_output a) in
  (∃ w' text, main a w = (Ok tt, w')
              ∧ files w' = <[out := FText text]> (files w)
              ∧ stdout w' = stdout w ++ ["Model saved to " +:+ out])
  ∨ (∃ e w', main a w = (Raise e, w')
             ∧ e ∈ main_errors
             ∧ files w' = files w ∧ stdout w' = stdout w).
Proof.
  intros Himg out.
  destruct (decide (default "modern" (arg_style a) ∈ choices)) as [Hst|Hst].
  2:{ right. exists SystemExit, w. split; [|split; [|done]].
      - unfold main, bind, parse_args. by rewrite bool_decide_eq_false_2.
      - in_list. }
  destruct (load_image (arg_input_file a) w) as [[im|e] w1] eqn:Hload.
  2:{ right. exists e, w1.
      destruct (load_image_raises _ _ _ _ Hload) as [-> He].
      split; [|split; [|done]].
      - unfold main, bind, parse_args. rewrite bool_decide_eq_true_2 by done.
        unfold ret. cbn [input_file]. by rewrite Hload.
      - destruct He as [[-> _]|[[-> _]|[-> _]]]; in_list. }
  apply load_image_ok_inv in Hload as (Hin & Hcv & ->).
  destruct (Himg _ _ (proj1 Hin)) as [Hwf Hn].
  destruct (arg_texture a) as [t|] eqn:Ht.
  - destruct (decide (t = "")) as [->|Hne].
    + destruct (writable w out) eqn:Hout.
      * left. destruct (main_writes a w im Hst Hin Hwf Hn Hcv) as (w' & Hrun & Hf & Hs);
          [rewrite Ht; by left|done|]. by eexists _, _.
      * right. destruct (main_stops_at_open a w im Hst Hin Hwf Hn Hcv) as (w' & Hrun & Hf);
          [rewrite Ht; by left|done|].
        exists OSError, w'. split; [done|]. split; [in_list|done].
    + destruct (load_image t w) as [[tim|e] w1] eqn:Hload.
      * apply load_image_ok_inv in Hload as (Htin & _ & ->).
        destruct (writable w out) eqn:Hout.
        -- left. destruct (main_writes a w im Hst Hin Hwf Hn Hcv) as (w' & Hrun & Hf & Hs);
             [rewrite Ht; right; by exists tim|done|]. by eexists _, _.
        -- right.
           destruct (main_stops_at_open a w im Hst Hin Hwf Hn Hcv) as (w' & Hrun & Hf);
             [rewrite Ht; right; by exists tim|done|].
           exists OSError, w'. split; [done|]. split; [in_list|done].
      * right. destruct (load_image_raises _ _ _ _ Hload) as [-> He].
        destruct (main_stops_at_texture a w im t e Hst Hin Hwf Hn Hcv Ht Hne) as (w' & Hrun & Hf);
          [by rewrite Hload|].
        exists e, w'. split; [done|]. split; [|done].
        destruct He as [[-> _]|[[-> _]|[-> _]]]; in_list.
  - destruct (writable w out) eqn:Hout.
    + left. destruct (main_writes a w im Hst Hin Hwf Hn Hcv) as (w' & Hrun & Hf & Hs);
        [by rewrite Ht|done|]. by eexists _, _.
    + right. destruct (main_stops_at_open a w im Hst Hin Hwf Hn Hcv) as (w' & Hrun & Hf);
        [by rewrite Ht|done|].
      exists OSError, w'. split; [done|]. split; [in_list|done].
Qed.

End Outcome.

Lemma sample_files_images p im :
  files sample_world !! p = Some (FImage im) → wf_image im ∧ (nchan im = 3 ∨ nchan im = 4).
Proof.
  simpl. unfold sample_files. intros Hp.
  destruct (decide (p = "drawing.png")) as [->|Hp1].
  { rewrite lookup_insert_eq in Hp. injection Hp as <-.
    split; [exact wf_image_2x2|by left]. }
  rewrite lookup_insert_ne in Hp by done.
  destruct (decide (p = "strip.png")) as [->|Hp2].
  { rewrite lookup_insert_eq in Hp. injection Hp as <-.
    split; [exact wf_image_1x2|by left]. }
  rewrite lookup_insert_ne in Hp by done.
  destruct (decide (p = "broken.png")) as [->|Hp3].
  { by rewrite lookup_insert_eq in Hp. }
  by rewrite lookup_insert_ne in Hp.
Qed.

Lemma main_texture_failure_witness :
  ∃ w', main (H := cv_bt601) (H0 := text_integral)
          (Argv "drawing.png" (Some "classic") (Some "missing.png") None) sample_world
        = (Raise FileNotFoundError, w')
        ∧ files w' = files sample_world ∧ stdout w' = stdout sample_world.
Proof.
  apply (main_texture_failure (H := cv_bt601) (H0 := text_integral)
           (Argv "drawing.png" (Some "classic") (Some "missing.png") None) sample_world
           image_2x2 "missing.png" FileNotFoundError).
  - simpl. unfold choices. apply list_elem_of_further, list_elem_of_here.
  - by apply decodes_drawing.
  - exact wf_image_2x2.
  - left. reflexivity.
  - reflexivity.
  - reflexivity.
  - discriminate.
  - vm_compute. reflexivity.
Defined.

Lemma main_unwritable_output_witness :
  ∃ w', main (H := cv_bt601) (H0 := text_integral)
          (Argv "drawing.png" None None (Some "/models/out.obj")) read_only_world
        = (Raise OSError, w')
        ∧ files w' = files read_only_world ∧ stdout w' = stdout read_only_world.
Proof.
  apply (main_unwritable_output (H := cv_bt601) (H0 := text_integral)
           (Argv "drawing.png" None None (Some "/models/out.obj")) read_only_world image_2x2).
  - simpl. unfold choices. apply list_elem_of_here.
  - by apply decodes_drawing.
  - exact wf_image_2x2.
  - left. reflexivity.
  - reflexivity.
  - exact I.
  - reflexivity.
Defined.

Lemma main_outcome_witness :
  (∃ w' text, main (H := cv_bt601) (H0 := text_integral)
                (Argv "broken.png" None None None) sample_world = (Ok tt, w')
              ∧ files w' = <["output.obj" := FText text]> (files sample_world)
              ∧ stdout w' = stdout sample_world ++ ["Model saved to " +:+ "output.obj"])
  ∨ (∃ e w', main (H := cv_bt601) (H0 := text_integral)
               (Argv "broken.png" None None None) sample_world = (Raise e, w')
             ∧ e ∈ main_errors
             ∧ files w' = files sample_world ∧ stdout w' = stdout sample_world).
Proof.
  exact (main_outcome (H := cv_bt601) (H0 := text_integral)
           (Argv "broken.png" None None None) sample_world sample_files_images).
Defined.

(** ** The range of the heights *)

Lemma sample_within_all : forallb (λ n, sample_within (Z.of_nat n)) (seq 0 256) = true.
Proof. vm_compute. reflexivity. Qed.

Lemma sample_within_u8 g : is_u8 g → sample_within g = true.
Proof.
  intros [Hlo Hhi]. pose proof sample_within_all as Hall.
  rewrite forallb_forall in Hall.
  rewrite <- (Z2Nat.id g) by lia. apply Hall, in_seq. lia.
Qed.

Lemma elem_of_grid_vertices hm v :
  v ∈ grid_vertices hm → ∃ y x z, at2 hm y x = Some z ∧ v = cell_vertex y x z.
Proof.
  unfold grid_vertices. intros Hv.
  apply list_elem_of_In, in_flat_map in Hv as (y & _ & Hv).
  apply in_flat_map in Hv as (x & _ & Hv).
  destruct (at2 hm y x) as [z|] eqn:Hz; [|done].
  destruct Hv as [<-|[]]. by exists y, x, z.
Qed.

Lemma height_of_source (cv : Cv2) im y x z :
  wf_image im → nchan im = 3 ∨ nchan im = 4 →
  at2 (height_of im) y x = Some z → ∃ g, is_u8 g ∧ z = sample_of g.
Proof.
  intros Hwf Hn. unfold height_of. rewrite !at2_map2.
  destruct (at2 (pixels im) y x) as [p|] eqn:Hp; [|done]. intros [= <-].
  exists (gray_of_pixel p). split; [|done].
  destruct Hwf as (_ & _ & _ & Hpix).
  destruct (at2_Forall _ _ _ _ _ Hpix Hp) as [Hl Hu].
  by apply (gray_of_pixel_u8 p (nchan im)).
Qed.

Lemma styled_heights (cv : Cv2) im style :
  wf_image im → nchan im = 3 ∨ nchan im = 4 → style ∈ choices →
  Forall (λ v, within (style_bound style) v.2 = true)
    (styled style (grid_vertices (height_of im))).
Proof.
  intros Hwf Hn Hst. apply Forall_forall. intros v Hv.
  assert (∀ v0, v0 ∈ grid_vertices (height_of im) →
            ∃ g, is_u8 g ∧ v0.2 = float_of_f32 (sample_of g)) as Hsrc.
  { intros v0 (y & x & z & Hz & ->)%elem_of_grid_vertices.
    destruct (height_of_source cv im y x z Hwf Hn Hz) as (g & Hg & ->). by exists g. }
  unfold choices in Hst. unfold styled, style_bound in *.
  apply elem_of_cons in Hst as [->|Hst]; [|apply elem_of_cons in Hst as [->|Hst];
    [|apply list_elem_of_singleton in Hst as ->]]; simpl in Hv |- *.
  - destruct (Hsrc v Hv) as (g & Hg & ->).
    pose proof (sample_within_u8 g Hg) as Hw. unfold sample_within in Hw.
    by apply andb_prop in Hw as [[Hw _]%andb_prop _].
  - apply list_elem_of_fmap in Hv as (v0 & -> & Hv0).
    destruct (Hsrc v0 Hv0) as (g & Hg & Hz). destruct v0 as [[x y] z]. simpl in *. subst z.
    pose proof (sample_within_u8 g Hg) as Hw. unfold sample_within in Hw.
    by apply andb_prop in Hw as [[_ Hw]%andb_prop _].
  - apply list_elem_of_fmap in Hv as (v0 & -> & Hv0).
    destruct (Hsrc v0 Hv0) as (g & Hg & Hz). destruct v0 as [[x y] z]. simpl in *. subst z.
    pose proof (sample_within_u8 g Hg) as Hw. unfold sample_within in Hw.
    by apply andb_prop in Hw as [_ Hw].
Qed.

(** X16: the model a run writes has one vertex line per pixel of the
    image, and every height in it lies between 0 and the factor of the
    style: 1.0 for "modern", 0.5 for "classic", 1.5 for "nostalgic". *)
Theorem main_heights_bounded (cv : Cv2) (txt : PyText) a w im :
  let st := default "modern" (arg_style a) in
  let out := default "output.obj" (arg_output a) in
  st ∈ choices →
  decodes w (arg_input_file a) im → wf_image im → nchan im = 3 ∨ nchan im = 4 →
  cv2_present w = true → texture_ok w (arg_texture a) → writable w out = true →
  ∃ w' vs,
    main a w = (Ok tt, w')
    ∧ files w' !! out = Some (FText (concat_text (map vertex_text vs)))
    ∧ length vs = fst (shape (pixels im)) * snd (shape (pixels im))
    ∧ Forall (λ v, within (style_bound st) v.2 = true) vs.
Proof.
  intros st out Hst Hin Hwf Hn Hcv Htex Hout.
  destruct (main_writes a w im Hst Hin Hwf Hn Hcv Htex Hout) as (w' & Hrun & Hfiles & _).
  exists w', (styled st (grid_vertices (height_of im))).
  split; [done|]. split; [|split].
  - rewrite Hfiles, lookup_insert_eq. by rewrite obj_text_no_faces.
  - rewrite styled_length, grid_vertices_length; [done|].
    unfold height_of. apply wf_map2, wf_map2, Hwf.
  - by apply styled_heights.
Qed.

Lemma main_heights_bounded_witness :
  ∃ w' vs,
    main (H := cv_bt601) (H0 := text_integral)
      (Argv "drawing.png" (Some "nostalgic") None None) sample_world = (Ok tt, w')
    ∧ files w' !! "output.obj"
      = Some (FText (concat_text (map (vertex_text (H := text_integral)) vs)))
    ∧ length vs = 2 * 2
    ∧ Forall (λ v, within 1.5 v.2 = true) vs.
Proof.
  apply (main_heights_bounded cv_bt601 text_integral
           (Argv "drawing.png" (Some "nostalgic") None None) sample_world image_2x2).
  - simpl. unfold choices. apply list_elem_of_further, list_elem_of_further, list_elem_of_here.
  - by apply decodes_drawing.
  - exact wf_image_2x2.
  - left. reflexivity.
  - reflexivity.
  - exact I.
  - reflexivity.
Defined.

(** ** app.py: the texture block and the Convert branch *)

Lemma files_set_files f w : files (set_files f w) = f.
Proof. reflexivity. Qed.

(** X17: the texture block of the web page always recovers.  Whatever
    was uploaded as texture, the block raises nothing and hands back the
    vertex list it was given; the temporary file is removed again and no
    other file, no object and no output is changed; a warning is shown
    exactly when [load_image] refused the upload. *)
Theorem texture_block_recovers tex_path content v w :
  let w1 := set_files (<[tex_path := content]> (files w)) w in
  ∃ w', texture_block (Some (tex_path, content)) v w = (Ok v, w')
        ∧ heap w' = heap w
        ∧ files w' = delete tex_path (files w)
        ∧ stdout w' = stdout w
        ∧ ui w' = ui w ++ match fst (load_image tex_path w1) with
                          | Ok _ => []
                          | Raise e => [UiWarning e]
                          end.
Proof.
  intros w1. unfold texture_block. unfold bind at 1. fold w1.
  unfold try_finally, try_except. unfold bind at 1.
  pose proof (load_image_world tex_path w1) as Hw.
  destruct (load_image tex_path w1) as [[img|e] w2]; simpl in Hw; subst w2.
  - unfold apply_texture, ret, unlink. simpl files. rewrite lookup_insert_eq.
    eexists. split; [reflexivity|]. simpl.
    by rewrite delete_insert_eq, app_nil_r.
  - unfold bind, st_warning, ret, unlink. simpl files. rewrite lookup_insert_eq.
    eexists. split; [reflexivity|]. simpl. by rewrite delete_insert_eq.
Qed.

Lemma texture_block_recovers_witness :
  ∃ w', texture_block (Some ("/tmp/tex.png", FText "not an image")) (PRef 0) mesh_world
        = (Ok (PRef 0), w')
        ∧ heap w' = heap mesh_world
        ∧ files w' = delete "/tmp/tex.png" (files mesh_world)
        ∧ stdout w' = stdout mesh_world
        ∧ ui w' = ui mesh_world ++ [UiWarning FileNotFoundError].
Proof.
  exact (texture_block_recovers "/tmp/tex.png" (FText "not an image") (PRef 0) mesh_world).
Defined.

Section Branch.
Context `{Cv2} `{PyText} `{Streamlit}.

(** X18: the Convert branch never produces a model.  With an upload, the
    branch removes the temporary copy of the upload whatever happens and
    leaves every other file, the heap and the standard output as they
    were: no OBJ file is written.  When [load_image] accepts the upload
    the branch ends in the [TypeError] of [isinstance(img, PILImage)]
    (line 59), before the height map is computed; when it refuses the
    upload the branch shows the error and returns. *)
Theorem convert_branch_outcome input_path content style tex tmpdir w :
  let w1 := set_files (<[input_path := content]> (files w)) w in
  ∃ r w', convert_branch (Some (input_path, content)) style tex tmpdir w = (r, w')
          ∧ heap w' = heap w
          ∧ files w' = delete input_path (files w)
          ∧ stdout w' = stdout w
          ∧ match fst (load_image input_path w1) with
            | Ok _ => r = Raise TypeError ∧ ui w' = ui w
            | Raise e => r = Ok tt
            end.
Proof.
  intros w1. unfold convert_branch. unfold bind at 1, write_upload at 1. fold w1.
  unfold try_finally, try_except_else.
  pose proof (load_image_world input_path w1) as Hw.
  destruct (load_image input_path w1) as [[img|e] w2] eqn:Hload; simpl in Hw; subst w2.
  - unfold bind at 1. unfold isinstance_PILImage, raise.
    unfold bind, path_exists, unlink. subst w1.
    rewrite files_set_files, lookup_insert_eq.
    rewrite bool_decide_eq_true_2 by by eexists.
    rewrite files_set_files, lookup_insert_eq.
    eexists _, _. split; [reflexivity|]. simpl. by rewrite delete_insert_eq.
  - assert (is_exception e = true) as ->.
    { destruct (load_image_raises _ _ _ _ Hload) as [_ [[-> _]|[[-> _]|[-> _]]]]; done. }
    unfold bind at 1. destruct (st_error_page (Some e) w1) as (Hr & Hh & Hf & Hs).
    destruct (st_error (Some e) w1) as [r w2]. simpl in Hr, Hh, Hf, Hs. subst r.
    unfold unlink at 1. rewrite Hf, lookup_insert_eq, delete_insert_eq.
    unfold bind, path_exists. rewrite files_set_files.
    rewrite bool_decide_eq_false_2.
    2:{ rewrite lookup_delete_eq. by intros [? ?]. }
    eexists _, _. split; [reflexivity|]. done.
Qed.

End Branch.

Lemma convert_branch_outcome_witness :
  ∃ r w', convert_branch (H := cv_bt601) (H0 := text_integral) (H1 := quiet_page)
            (Some ("/tmp/up1.png", FImage image_2x2)) "modern" None "/tmp" sample_world
          = (r, w')
          ∧ heap w' = heap sample_world
          ∧ files w' = delete "/tmp/up1.png" (files sample_world)
          ∧ stdout w' = stdout sample_world
          ∧ r = Raise TypeError ∧ ui w' = ui sample_world.
Proof.
  exact (convert_branch_outcome (H := cv_bt601) (H0 := text_integral) (H1 := quiet_page)
           "/tmp/up1.png" (FImage image_2x2) "modern" None "/tmp" sample_world).
Defined.

(** ** Reading back the model a run writes *)

Lemma image_2x2_reads :
  Forall (vertex_reads (H := text_integral) read_integral)
    (styled "modern" (grid_vertices (height_of (H := cv_bt601) image_2x2))).
Proof.
  assert (styled "modern" (grid_vertices (height_of (H := cv_bt601) image_2x2))
          = [(0, 0, 0)%float; (1, 0, 1)%float; (0, 1, 0)%float; (1, 1, 0)%float]) as ->
    by (vm_compute; reflexivity).
  repeat (apply List.Forall_cons; [repeat split; vm_compute; reflexivity|]).
  apply List.Forall_nil.
Qed.

(** X19: the model can be read back.  When the floats of the model are
    printed so that they read back as themselves, parsing the file a run
    of [main] wrote gives exactly the styled vertices of the image's
    height map, one per pixel in row-major order, no texture coordinate
    and no face. *)
Theorem main_model_reads_back (cv : Cv2) (txt : PyText) read_float a w im :
  let st := default "modern" (arg_style a) in
  let out := default "output.obj" (arg_output a) in
  st ∈ choices →
  decodes w (arg_input_file a) im → wf_image im → nchan im = 3 ∨ nchan im = 4 →
  cv2_present w = true → texture_ok w (arg_texture a) → writable w out = true →
  Forall (vertex_reads read_float) (styled st (grid_vertices (height_of im))) →
  ∃ w' text,
    main a w = (Ok tt, w')
    ∧ files w' !! out = Some (FText text)
    ∧ parse_obj read_float text
      = Some (Mesh (styled st (grid_vertices (height_of im))) [] [])
    ∧ length (styled st (grid_vertices (height_of im)))
      = fst (shape (pixels im)) * snd (shape (pixels im)).
Proof.
  intros st out Hst Hin Hwf Hn Hcv Htex Hout Hreads.
  destruct (main_writes a w im Hst Hin Hwf Hn Hcv Htex Hout) as (w' & Hrun & Hfiles & _).
  eexists w', _. split; [done|].
  split; [by rewrite Hfiles, lookup_insert_eq|].
  split; [by apply parse_obj_text|].
  rewrite styled_length, grid_vertices_length; [done|].
  unfold height_of. apply wf_map2, wf_map2, Hwf.
Qed.

Lemma main_model_reads_back_witness :
  ∃ w' text,
    main (H := cv_bt601) (H0 := text_integral)
      (Argv "drawing.png" None (Some "strip.png") None) sample_world = (Ok tt, w')
    ∧ files w' !! "output.obj" = Some (FText text)
    ∧ parse_obj read_integral text
      = Some (Mesh [(0, 0, 0)%float; (1, 0, 1)%float; (0, 1, 0)%float; (1, 1, 0)%float] [] [])
    ∧ length [(0, 0, 0)%float; (1, 0, 1)%float; (0, 1, 0)%float; (1, 1, 0)%float] = 2 * 2.
Proof.
  apply (main_model_reads_back cv_bt601 text_integral read_integral
           (Argv "drawing.png" None (Some "strip.png") None) sample_world image_2x2).
  - simpl. unfold choices. apply list_elem_of_here.
  - by apply decodes_drawing.
  - exact wf_image_2x2.
  - left. reflexivity.
  - reflexivity.
  - right. exists image_1x2.
    split; [vm_compute; reflexivity|]. split; vm_compute; discriminate.
  - reflexivity.
  - exact image_2x2_reads.
Defined.
